(** * Argentina BestValueGPU: metrics derivation and ranking pipeline

    A shallow embedding of [src/app.js] (the metrics calculator [gpuMetrics]
    and the filter/sort pipeline of [applyFilters]) and of the older table
    script (its [enrichGpuData] and [compareValues]).

    JavaScript numbers are IEEE 754 binary64 values, modelled by Rocq's
    primitive floats; objects are finite maps from property names to values;
    strings are Rocq strings, whose characters stand for the code units of an
    ASCII text. *)

From Stdlib Require Import Floats Ascii.
From stdpp Require Import gmap strings list fin_maps.

(** ** JavaScript values and the built-ins the program calls *)

Module Js.

(** The values a record parsed from JSON can hold in a property. *)
Inductive val : Type :=
| VUndef
| VNull
| VBool (b : bool)
| VNum (n : float)
| VStr (s : string).

(** An object: its own properties. A property that is absent reads as
    [undefined]. *)
Abbreviation obj := (gmap string val).

Definition get (o : obj) (k : string) : val := default VUndef (o !! k).

Inductive jstype : Type := TUndefined | TObject | TBoolean | TNumber | TString.

Definition typeof (v : val) : jstype :=
  match v with
  | VUndef => TUndefined
  | VNull => TObject
  | VBool _ => TBoolean
  | VNum _ => TNumber
  | VStr _ => TString
  end.

Definition isNumber (v : val) : bool :=
  match v with VNum _ => true | _ => false end.

(** Completion of a call: a normal return or a thrown exception. *)
Inductive exn : Type := TypeError | RangeError.

Inductive completion (A : Type) : Type :=
| Returns (a : A)
| Throws (e : exn).
Arguments Returns {A} a.
Arguments Throws {A} e.

#[global] Instance completion_ret : MRet completion := @Returns.
#[global] Instance completion_bind : MBind completion :=
  λ A B f m, match m with Returns a => f a | Throws e => Throws e end.
#[global] Instance completion_fmap : FMap completion :=
  λ A B f m, match m with Returns a => Returns (f a) | Throws e => Throws e end.

(** *** Strings *)

Definition isUpper (c : ascii) : bool :=
  let n := nat_of_ascii c in (65 <=? n)%nat && (n <=? 90)%nat.

Definition lowerChar (c : ascii) : ascii :=
  if isUpper c then ascii_of_nat (nat_of_ascii c + 32) else c.

(** [String.prototype.toLowerCase] on ASCII text. *)
Fixpoint toLowerCase (s : string) : string :=
  match s with
  | EmptyString => EmptyString
  | String c s' => String (lowerChar c) (toLowerCase s')
  end.

(** White space and line terminators of the ASCII range: TAB, LF, VT, FF,
    CR and SPACE. *)
Definition isWhiteSpace (c : ascii) : bool :=
  let n := nat_of_ascii c in ((9 <=? n)%nat && (n <=? 13)%nat) || (n =? 32)%nat.

Fixpoint trimStart (s : string) : string :=
  match s with
  | EmptyString => EmptyString
  | String c s' => if isWhiteSpace c then trimStart s' else s
  end.

(** [trimEnd] keeps a character when it is not white space or when
    something remains after it. *)
Fixpoint trimEnd (s : string) : string :=
  match s with
  | EmptyString => EmptyString
  | String c s' =>
      match trimEnd s' with
      | EmptyString => if isWhiteSpace c then EmptyString else String c EmptyString
      | r => String c r
      end
  end.

(** [String.prototype.trim]. *)
Definition trim (s : string) : string := trimEnd (trimStart s).

(** [String.prototype.includes]: [sub] occurs in [s] at some position. *)
Fixpoint includes (s sub : string) : bool :=
  String.prefix sub s ||
  match s with
  | EmptyString => false
  | String _ s' => includes s' sub
  end.

(** Truthiness of a string used as a condition: non-empty. *)
Definition truthyStr (s : string) : bool :=
  match s with EmptyString => false | _ => true end.

(** Truthiness of a value that is a string or [undefined]. *)
Definition truthy (o : option string) : bool :=
  match o with Some s => truthyStr s | None => false end.

(** *** Conversions that depend on number parsing and printing

    [StringToNumber], [Number::toString], [Number.prototype.toFixed] and
    [Math.round] are taken as given functions. *)
Section Conversions.
Variable stringToNumber : string → float.
Variable numberToString : float → string.

(** [ToNumber]. *)
Definition toNumber (v : val) : float :=
  match v with
  | VUndef => nan
  | VNull => 0
  | VBool b => if b then 1 else 0
  | VNum n => n
  | VStr s => stringToNumber s
  end.

(** [String(v)]. *)
Definition toString (v : val) : string :=
  match v with
  | VUndef => "undefined"
  | VNull => "null"
  | VBool b => if b then "true" else "false"
  | VNum n => numberToString n
  | VStr s => s
  end.

(** [x < y]: two strings compare by code units, anything else as
    numbers, and a comparison with NaN is false. *)
Definition lessThan (x y : val) : bool :=
  match x, y with
  | VStr s, VStr t => String.ltb s t
  | _, _ => PrimFloat.ltb (toNumber x) (toNumber y)
  end.

(** [x > y] is [y < x]. *)
Definition greaterThan (x y : val) : bool := lessThan y x.
End Conversions.

(** [x === s] for a string [s]. *)
Definition strictEqStr (x : val) (s : string) : bool :=
  match x with VStr t => String.eqb t s | _ => false end.

(** *** Arrays *)

(** [Array.prototype.filter] with a callback that may throw: the callback
    runs on the elements in order and the first exception ends the call. *)
Fixpoint filterE {A} (p : A → completion bool) (l : list A) : completion (list A) :=
  match l with
  | [] => Returns []
  | x :: l' =>
      b ← p x;
      r ← filterE p l';
      Returns (if b : bool then x :: r else r)
  end.

(** [Array.prototype.sort] with a comparator. The comparator's result [v]
    orders [x] after [y] when [v > 0]; a NaN result counts as [+0]. The sort
    is stable (ECMAScript 2019); it is modelled by insertion from the right,
    which moves an element past exactly the elements it must follow. This
    is the order of every conforming sort when the comparator is consistent
    on the elements ([consistent] below). When it is not (a NaN key among
    different numbers), ECMAScript leaves the order to the engine: the
    result of [arraySort] is then a rearrangement of the array, as the
    engine's is, but it need not be the engine's order. What is stated of
    the order of the result is stated under [consistent]; the order one
    engine gives without it is in [V8] below. *)
Definition sortsAfter {A} (cmp : A → A → float) (x y : A) : bool :=
  PrimFloat.ltb 0 (cmp x y).

Fixpoint insertSorted {A} (cmp : A → A → float) (x : A) (l : list A) : list A :=
  match l with
  | [] => [x]
  | y :: l' => if sortsAfter cmp x y then y :: insertSorted cmp x l' else x :: l
  end.

Definition arraySort {A} (cmp : A → A → float) (l : list A) : list A :=
  foldr (insertSorted cmp) [] l.

(** How [sort] reads the number [v] a comparator returns: below zero,
    zero (a NaN included) or above zero. *)
Definition orderOf (v : float) : comparison :=
  if PrimFloat.ltb v 0 then Lt else if PrimFloat.ltb 0 v then Gt else Eq.

Definition sameOrder (c d : comparison) : bool :=
  match c, d with
  | Lt, Lt | Eq, Eq | Gt, Gt => true
  | _, _ => false
  end.

(** [cmp] is a consistent comparator for the elements of [l] (ECMAScript,
    Array.prototype.sort), its NaN results read as zero: [=] is reflexive
    and symmetric, and [=], [<] and [>] are transitive. *)
Definition consistent {A} (cmp : A → A → float) (l : list A) : bool :=
  let ordered (c : comparison) (x y : A) := sameOrder (orderOf (cmp x y)) c in
  forallb (λ a,
    ordered Eq a a &&
    forallb (λ b,
      implb (ordered Eq a b) (ordered Eq b a) &&
      forallb (λ c,
        implb (ordered Eq a b && ordered Eq b c) (ordered Eq a c) &&
        implb (ordered Lt a b && ordered Lt b c) (ordered Lt a c) &&
        implb (ordered Gt a b && ordered Gt b c) (ordered Gt a c)) l) l) l.

End Js.

Import Js.

(** ** [src/app.js]: metrics and the filter/sort pipeline *)

Module App.

Definition USD_ARS : float := 1000.
Definition ENERGY_ARS_PER_KWH : float := 80.

(** The state of the three form controls [applyFilters] reads: the [value]
    of each element, or [None] when the document has no such element. *)
Record controls : Type := Controls {
  searchInput : option string;
  algoSelect : option string;
  sortSelect : option string;
}.

Section Pipeline.
Variable stringToNumber : string → float.

(** A property read in an arithmetic position: [o.k] under [ToNumber]. *)
Definition field (o : obj) (k : string) : float :=
  toNumber stringToNumber (get o k).

Definition gpuMetrics (gpu : obj) : obj :=
  let efficiency := (field gpu "hashrate" / field gpu "power")%float in
  let dailyRevenueArs := (field gpu "dailyProfitUsd" * USD_ARS)%float in
  let dailyEnergyKwh := (field gpu "power" / 1000 * 24)%float in
  let dailyEnergyCostArs := (dailyEnergyKwh * ENERGY_ARS_PER_KWH)%float in
  let dailyNetArs := (dailyRevenueArs - dailyEnergyCostArs)%float in
  let roiDays :=
    if (0 <? dailyNetArs)%float
    then (field gpu "priceArs" / dailyNetArs)%float
    else infinity in
  let score := (dailyNetArs * efficiency)%float in
  list_to_map [
    ("efficiency", VNum efficiency);
    ("dailyRevenueArs", VNum dailyRevenueArs);
    ("dailyEnergyCostArs", VNum dailyEnergyCostArs);
    ("dailyNetArs", VNum dailyNetArs);
    ("roiDays", VNum roiDays);
    ("score", VNum score)
  ].

(** The callback of the first filter: [gpu.name.toLowerCase()] throws a
    TypeError when [gpu.name] is not a string. *)
Definition nameMatches (search : string) (gpu : obj) : completion bool :=
  match get gpu "name" with
  | VStr name => Returns (includes (toLowerCase name) search)
  | _ => Throws TypeError
  end.

(** The callback of the second filter: [gpu.algo === algo]. *)
Definition algoMatches (algo : string) (gpu : obj) : bool :=
  strictEqStr (get gpu "algo") algo.

(** [search]: the search box's text, lower-cased and trimmed. *)
Definition searchOf (c : controls) : option string :=
  (λ v, trim (toLowerCase v)) <$> searchInput c.

(** The two conditional filters, on a copy of [gpus]. *)
Definition filterStep (gpus : list obj) (c : controls) : completion (list obj) :=
  let search := searchOf c in
  let algo := algoSelect c in
  let result := gpus in
  result ←
    (if truthy search
     then filterE (nameMatches (default EmptyString search)) result
     else Returns result);
  Returns
    (if truthy algo
     then List.filter (algoMatches (default EmptyString algo)) result
     else result).

(** [switch (sort)] compares [sort] with each case label by [===]. *)
Definition caseIs (sort : option string) (label : string) : bool :=
  match sort with Some s => String.eqb s label | None => false end.

(** The comparator handed to [sort]. [ma] and [mb] are the metrics
    objects, so [ma.hashrate] and [ma.priceArs] read properties that
    [gpuMetrics] does not set. *)
Definition sortComparator (sort : option string) (a b : obj) : float :=
  let ma := gpuMetrics a in
  let mb := gpuMetrics b in
  if caseIs sort "hashrate" then (field mb "hashrate" - field ma "hashrate")%float
  else if caseIs sort "efficiency" then (field mb "efficiency" - field ma "efficiency")%float
  else if caseIs sort "price" then (field ma "priceArs" - field mb "priceArs")%float
  else if caseIs sort "roi" then (field ma "roiDays" - field mb "roiDays")%float
  else (field mb "score" - field ma "score")%float.

(** [applyFilters]: the array it hands to [buildTable]. The rendering
    that [buildTable] does with it is outside the model. *)
Definition applyFilters (gpus : list obj) (c : controls) : completion (list obj) :=
  result ← filterStep gpus c;
  Returns (arraySort (sortComparator (sortSelect c)) result).
End Pipeline.

End App.

(** ** The table script: enrichment and the generic comparator *)

Module Table.

Definition conversionRate : float := 350.

Section Script.
Variable stringToNumber : string → float.
Variable numberToString : float → string.
(** [x.toFixed(digits)] and [Math.round(x)]. *)
Variable toFixed : float → nat → string.
Variable mathRound : float → float.

Definition enrichGpu (gpu : obj) : obj :=
  let efficiency :=
    stringToNumber
      (toFixed (App.field stringToNumber gpu "hashrate" / App.field stringToNumber gpu "power")%float 2) in
  let dailyProfitArs := (App.field stringToNumber gpu "dailyProfitUsd" * conversionRate)%float in
  let roi := mathRound (App.field stringToNumber gpu "priceArs" / dailyProfitArs)%float in
  <["roi" := VNum roi]>
    (<["dailyProfit" := VNum (mathRound dailyProfitArs)]>
       (<["efficiency" := VNum efficiency]> gpu)).

Definition enrichGpuData (data : list obj) : list obj := enrichGpu <$> data.

(** [compareValues(key, order = "asc")]: the comparator it returns,
    applied to [a] and [b]. An omitted [order] is [None]. *)
Definition compareValues (key : string) (order : option string) (a b : obj) : Z :=
  let order := default "asc" order in
  let valueA := get a key in
  let valueB := get b key in
  let isNum := isNumber valueA && isNumber valueB in
  let valueA := if isNum then valueA else VStr (toLowerCase (toString numberToString valueA)) in
  let valueB := if isNum then valueB else VStr (toLowerCase (toString numberToString valueB)) in
  if lessThan stringToNumber valueA valueB then (if String.eqb order "asc" then -1 else 1)%Z
  else if greaterThan stringToNumber valueA valueB then (if String.eqb order "asc" then 1 else -1)%Z
  else 0%Z.
End Script.

End Table.

(** ** The same code over a store of objects and arrays

    Records and arrays are heap cells named by references, and a call
    threads the heap: an object literal or a spread allocates a fresh
    object, [[...a]], [filter] and [map] allocate a fresh array, and [sort]
    overwrites the array it is called on. *)

Module Store.

Abbreviation loc := positive.

Inductive cell : Type :=
| CObj (o : obj)
| CArr (a : list loc).

Abbreviation heap := (gmap loc cell).

(** A computation: from a heap to a completion and the heap it leaves,
    also when it throws. *)
Definition M (A : Type) : Type := heap → completion A * heap.

#[global] Instance M_ret : MRet M := λ A a h, (Returns a, h).
#[global] Instance M_bind : MBind M :=
  λ A B f m h,
    match m h with
    | (Returns a, h') => f a h'
    | (Throws e, h') => (Throws e, h')
    end.

Definition throw {A} (e : exn) : M A := λ h, (Throws e, h).

Definition alloc (c : cell) : M loc :=
  λ h, let l := fresh (dom h) in (Returns l, <[l := c]> h).

(** The properties of the object at [l]; a cell that is not an object has
    none of the properties read here. *)
Definition props (h : heap) (l : loc) : obj :=
  match h !! l with Some (CObj o) => o | _ => ∅ end.

Definition elems (h : heap) (l : loc) : list loc :=
  match h !! l with Some (CArr a) => a | _ => [] end.

Definition readObj (l : loc) : M obj := λ h, (Returns (props h l), h).
Definition readArr (l : loc) : M (list loc) := λ h, (Returns (elems h l), h).
Definition writeArr (l : loc) (a : list loc) : M unit :=
  λ h, (Returns (), <[l := CArr a]> h).

(** The records an array of references denotes. *)
Definition deref (h : heap) (a : list loc) : list obj := props h <$> a.

(** [a.filter(p)]: a new array. *)
Fixpoint filterM (p : loc → M bool) (a : list loc) : M (list loc) :=
  match a with
  | [] => mret []
  | x :: a' =>
      b ← p x;
      r ← filterM p a';
      mret (if b : bool then x :: r else r)
  end.

Definition arrayFilter (p : loc → M bool) (arr : loc) : M loc :=
  a ← readArr arr;
  r ← filterM p a;
  alloc (CArr r).

(** [a.map(f)]: a new array. *)
Fixpoint mapM (f : loc → M loc) (a : list loc) : M (list loc) :=
  match a with
  | [] => mret []
  | x :: a' =>
      y ← f x;
      r ← mapM f a';
      mret (y :: r)
  end.

Definition arrayMap (f : loc → M loc) (arr : loc) : M loc :=
  a ← readArr arr;
  r ← mapM f a;
  alloc (CArr r).

(** [a.sort(cmp)]: the array [a] itself is overwritten. *)
Fixpoint insertSortedM (cmp : loc → loc → M float) (x : loc) (a : list loc) : M (list loc) :=
  match a with
  | [] => mret [x]
  | y :: a' =>
      v ← cmp x y;
      if (0 <? v)%float
      then r ← insertSortedM cmp x a'; mret (y :: r)
      else mret (x :: a)
  end.

Fixpoint sortM (cmp : loc → loc → M float) (a : list loc) : M (list loc) :=
  match a with
  | [] => mret []
  | x :: a' =>
      r ← sortM cmp a';
      insertSortedM cmp x r
  end.

Definition arraySortInPlace (cmp : loc → loc → M float) (arr : loc) : M unit :=
  a ← readArr arr;
  r ← sortM cmp a;
  writeArr arr r.

Section Program.
Variable stringToNumber : string → float.
Variable toFixed : float → nat → string.
Variable mathRound : float → float.

(** [gpuMetrics(gpu)]: the object literal it returns is a new object. *)
Definition gpuMetrics (gpu : loc) : M loc :=
  o ← readObj gpu;
  alloc (CObj (App.gpuMetrics stringToNumber o)).

Definition nameMatches (search : string) (gpu : loc) : M bool :=
  o ← readObj gpu;
  match App.nameMatches search o with
  | Returns b => mret b
  | Throws e => throw e
  end.

Definition algoMatches (algo : string) (gpu : loc) : M bool :=
  o ← readObj gpu;
  mret (App.algoMatches algo o).

Definition sortComparator (sort : option string) (a b : loc) : M float :=
  ma ← gpuMetrics a;
  mb ← gpuMetrics b;
  oma ← readObj ma;
  omb ← readObj mb;
  let field := App.field stringToNumber in
  mret
    (if App.caseIs sort "hashrate" then (field omb "hashrate" - field oma "hashrate")%float
     else if App.caseIs sort "efficiency" then (field omb "efficiency" - field oma "efficiency")%float
     else if App.caseIs sort "price" then (field oma "priceArs" - field omb "priceArs")%float
     else if App.caseIs sort "roi" then (field oma "roiDays" - field omb "roiDays")%float
     else (field omb "score" - field oma "score")%float).

(** [applyFilters], with the global [gpus] an array reference; it
    returns the reference of the array handed to [buildTable]. *)
Definition applyFilters (gpus : loc) (c : App.controls) : M loc :=
  let search := App.searchOf c in
  let algo := App.algoSelect c in
  a ← readArr gpus;
  result ← alloc (CArr a);
  result ←
    (if truthy search
     then arrayFilter (nameMatches (default EmptyString search)) result
     else mret result);
  result ←
    (if truthy algo
     then arrayFilter (algoMatches (default EmptyString algo)) result
     else mret result);
  _ ← arraySortInPlace (sortComparator (App.sortSelect c)) result;
  mret result.

(** [enrichGpuData(data)]: the spread copies the record into a new
    object, to which the three derived properties are added. *)
Definition enrichGpu (gpu : loc) : M loc :=
  o ← readObj gpu;
  alloc (CObj (Table.enrichGpu stringToNumber toFixed mathRound o)).

Definition enrichGpuData (data : loc) : M loc := arrayMap enrichGpu data.
End Program.

End Store.

(** ** Concrete records and conversions for the closed instances *)

Module Example.

(** The example records hold numbers in their numeric properties and
    names that are not numeric literals, on which [StringToNumber] is NaN;
    number printing and rounding are never reached. *)
Definition stringToNumber : string → float := λ _, nan.
Definition numberToString : float → string := λ _, EmptyString.
Definition toFixed : float → nat → string := λ _ _, EmptyString.
Definition mathRound : float → float := λ x, x.

Definition gpu (name algo : string) (hashrate power priceArs dailyProfitUsd : float) : obj :=
  list_to_map [
    ("name", VStr name);
    ("algo", VStr algo);
    ("hashrate", VNum hashrate);
    ("power", VNum power);
    ("priceArs", VNum priceArs);
    ("dailyProfitUsd", VNum dailyProfitUsd)
  ].

(** The record of the specification's worked example, and the same record
    with no daily profit. *)
Definition gpuX : obj :=
  list_to_map [
    ("name", VStr "X");
    ("hashrate", VNum 100);
    ("power", VNum 200);
    ("priceArs", VNum 500000);
    ("dailyProfitUsd", VNum 1)
  ].

Definition gpuX0 : obj := <["dailyProfitUsd" := VNum 0]> gpuX.

(** Two cards in ascending order of hash rate and of price. *)
Definition slow : obj := gpu "RX 580" "ethash" 30 185 150000 0.5.
Definition fast : obj := gpu "RTX 3080" "ethash" 100 320 900000 3.

(** A card with the numbers of [slow] under another name, and [slow]
    with its name in small letters. *)
Definition slowTwin : obj := <["name" := VStr "RX 570"]> slow.
Definition slowSmall : obj := <["name" := VStr "rx 580"]> slow.

(** A card with no price, whose [roiDays] is NaN. *)
Definition unpriced : obj := delete "priceArs" (gpu "GT 1030" "ethash" 10 30 0 1).

(** A record whose power draw is zero, and the same with the negative
    zero. *)
Definition unplugged : obj := gpu "GT 710" "ethash" 1 0 50000 0.25.
Definition unpluggedNegative : obj := <["power" := VNum (-0)]> unplugged.

Definition noControls : App.controls := App.Controls None None None.

(** A heap with the array [gpus] at 1 and its two records at 2 and 3. *)
Definition heap : Store.heap :=
  list_to_map [
    (1%positive, Store.CArr [2%positive; 3%positive]);
    (2%positive, Store.CObj slow);
    (3%positive, Store.CObj fast)
  ].
End Example.

(** ** Vocabulary of the specification *)

Module Spec.

(** A record of the data model has a string for a name. *)
Definition hasName (gpu : obj) : bool :=
  match get gpu "name" with VStr _ => true | _ => false end.

(** The name-substring predicate: the name contains [searchText], letter
    case apart. *)
Definition nameContains (searchText : string) (gpu : obj) : bool :=
  match get gpu "name" with
  | VStr name => includes (toLowerCase name) (toLowerCase searchText)
  | _ => false
  end.

(** The algorithm predicate: [algo] is exactly [algoFilter]. *)
Definition algoIs (algoFilter : string) (gpu : obj) : bool :=
  strictEqStr (get gpu "algo") algoFilter.

(** A predicate bound to an option: an absent or empty option retains
    every record. *)
Definition whenPresent (p : string → obj → bool) (option : option string) (gpu : obj) : bool :=
  match option with
  | Some s => if truthyStr s then p s gpu else true
  | None => true
  end.

(** Retention as the specification words it: both predicates, each on its
    option as given. *)
Definition passesBoth (searchText algoFilter : option string) (gpu : obj) : bool :=
  whenPresent nameContains searchText gpu && whenPresent algoIs algoFilter gpu.

(** Retention with the search text trimmed first. *)
Definition retained (searchText algoFilter : option string) (gpu : obj) : bool :=
  passesBoth (trim <$> searchText) algoFilter gpu.


(** Two keys are the same when they are the same value (NaN included) or
    equal as numbers (the two zeros). *)
Definition sameKey (x y : float) : bool :=
  PrimFloat.Leibniz.eqb x y || (x =? y)%float.

(** The records of [l] whose key is the same as [k], in the order of [l]. *)
Definition withKey {A} (key : A → float) (k : float) (l : list A) : list A :=
  List.filter (λ x, sameKey (key x) k) l.

Section SortKey.
Variable stringToNumber : string → float.

(** The number the comparator of [applyFilters] reads off a record under
    each sort key. *)
Definition sortKeyOf (sort : option string) (gpu : obj) : float :=
  let m := App.gpuMetrics stringToNumber gpu in
  if App.caseIs sort "hashrate" then App.field stringToNumber m "hashrate"
  else if App.caseIs sort "efficiency" then App.field stringToNumber m "efficiency"
  else if App.caseIs sort "price" then App.field stringToNumber m "priceArs"
  else if App.caseIs sort "roi" then App.field stringToNumber m "roiDays"
  else App.field stringToNumber m "score".
End SortKey.

(** A zero of either sign. *)
Definition isZeroSF (a : spec_float) : bool :=
  match a with S754_zero _ => true | _ => false end.

Section RoiDays.
Variable stringToNumber : string → float.

(** The [roiDays] of a record. *)
Definition roiDaysOf (gpu : obj) : float :=
  App.field stringToNumber (App.gpuMetrics stringToNumber gpu) "roiDays".

(** A return on investment that is a number below [Infinity]. *)
Definition finiteRoi (gpu : obj) : bool := (roiDaysOf gpu <? infinity)%float.

(** A return on investment that is the sentinel. *)
Definition infiniteRoi (gpu : obj) : bool := PrimFloat.Leibniz.eqb (roiDaysOf gpu) infinity.
End RoiDays.

(** The three-way result of a comparator. *)
Definition signOf (c : comparison) : Z :=
  match c with Lt => -1 | Eq => 0 | Gt => 1 end.

(** Numeric comparison of two numbers, as a three-way result; a
    comparison with NaN gives [0]. *)
Definition numericOrder (x y : float) : Z :=
  if (x <? y)%float then -1 else if (y <? x)%float then 1 else 0.

(** Lexicographic comparison of two texts by their characters. *)
Definition textOrder (s t : string) : Z := signOf (String.compare s t).

Section Operands.
Variable numberToString : float → string.

(** A value as the lower-cased text [compareValues] compares. *)
Definition textOf (v : val) : string := toLowerCase (toString numberToString v).

(** The two operands of [compareValues] after its conversion step: as they
    are when both are numbers, as lower-cased texts otherwise. *)
Definition operands (key : string) (a b : obj) : val * val :=
  if isNumber (get a key) && isNumber (get b key)
  then (get a key, get b key)
  else (VStr (textOf (get a key)), VStr (textOf (get b key))).
End Operands.

(** Every cell of [h] is still in [h'], unchanged. *)
Definition preserved (h h' : Store.heap) : Prop :=
  ∀ (l : Store.loc) (c : Store.cell), h !! l = Some c → h' !! l = Some c.

(** The references of [a] name cells of [h]. *)
Definition live (h : Store.heap) (a : list Store.loc) : Prop :=
  Forall (λ l, is_Some (h !! l)) a.

(** In [h] the array at [arr] is a cell that [h0] does not hold, and its
    elements name the records [r] of [h0], which [h] still has unchanged. *)
Definition denotes (h0 h : Store.heap) (arr : Store.loc) (r : list obj) : Prop :=
  preserved h0 h ∧ h0 !! arr = None ∧
  live h0 (Store.elems h arr) ∧ Store.deref h0 (Store.elems h arr) = r.

(** A computation that, run on any heap that still has the cells of [h0]
    unchanged, leaves a heap that still has them unchanged. *)
Definition framed (h0 : Store.heap) {A} (m : Store.M A) : Prop :=
  ∀ h : Store.heap, preserved h0 h → preserved h0 (m h).2.

(** A framed computation whose result is a reference that [h0] does not
    hold: a new cell. *)
Definition framedFresh (h0 : Store.heap) (m : Store.M Store.loc) : Prop :=
  ∀ h : Store.heap, preserved h0 h →
    preserved h0 (m h).2 ∧ ∀ l : Store.loc, (m h).1 = Returns l → h0 !! l = None.

End Spec.

From Stdlib Require Import Sorted.

(** ** More built-ins: the ones the rendering and the loading call *)

Module Builtins.

Definition isLower (c : ascii) : bool :=
  let n := nat_of_ascii c in (97 <=? n)%nat && (n <=? 122)%nat.

Definition upperChar (c : ascii) : ascii :=
  if isLower c then ascii_of_nat (nat_of_ascii c - 32) else c.

(** [String.prototype.toUpperCase] on ASCII text. *)
Fixpoint toUpperCase (s : string) : string :=
  match s with
  | EmptyString => EmptyString
  | String c s' => String (upperChar c) (toUpperCase s')
  end.

(** The line feed, ["\n"]. *)
Definition newline : string := String "010"%char EmptyString.

(** [l.join(sep)] on an array of strings. *)
Fixpoint join (sep : string) (l : list string) : string :=
  match l with
  | [] => EmptyString
  | [x] => x
  | x :: l' => x +:+ sep +:+ join sep l'
  end.

(** [s.replace(/\/$/, "")]: one slash at the very end is removed. *)
Fixpoint dropTrailingSlash (s : string) : string :=
  match s with
  | EmptyString => EmptyString
  | String c EmptyString => if Ascii.eqb c "/"%char then EmptyString else s
  | String c s' => String c (dropTrailingSlash s')
  end.

(** [s.replace(/\n/g, "<br />")]: every line feed becomes a break. *)
Fixpoint breakLines (s : string) : string :=
  match s with
  | EmptyString => EmptyString
  | String c s' =>
      if Ascii.eqb c "010"%char then "<br />" +:+ breakLines s'
      else String c (breakLines s')
  end.

(** [[...new Set(l)]]: the elements of [l] in order, each at its first
    occurrence only. [seen] is the set built so far. *)
Fixpoint setFrom (seen : list string) (l : list string) : list string :=
  match l with
  | [] => []
  | x :: l' =>
      if bool_decide (x ∈ seen) then setFrom seen l'
      else x :: setFrom (x :: seen) l'
  end.

Definition spreadSet (l : list string) : list string := setFrom [] l.

(** The array index [n] as a number. *)
Fixpoint ofNat (n : nat) : float :=
  match n with
  | O => 0
  | S n' => (ofNat n' + 1)%float
  end.

(** [v.toLocaleString(...)]: [undefined] and [null] have no properties; a
    number is formatted by [format]; a string is returned as it is, and a
    boolean as its text. *)
Definition toLocaleString (format : float → string) (v : val) : completion string :=
  match v with
  | VUndef | VNull => Throws TypeError
  | VBool b => Returns (if b then "true" else "false")
  | VNum n => Returns (format n)
  | VStr s => Returns s
  end.

(** The largest number of fraction digits a number format takes
    (ECMA-402). *)
Definition maxFractionDigits : nat := 100.

(** [v.toLocaleString(locale, {maximumFractionDigits: digits,
    minimumFractionDigits: digits})] for [digits] a non-negative integer.
    The receiver is looked at first: [undefined] and [null] have no
    properties, and a string or a boolean has the method of [Object], which
    ignores the options. On a number the options are read, and a number of
    fraction digits above [maxFractionDigits] throws a RangeError. *)
Definition toLocaleStringDigits (format : float → nat → string) (digits : nat) (v : val)
    : completion string :=
  match v with
  | VUndef | VNull => Throws TypeError
  | VBool b => Returns (if b then "true" else "false")
  | VNum n =>
      if (maxFractionDigits <? digits)%nat then Throws RangeError
      else Returns (format n digits)
  | VStr s => Returns s
  end.

(** The value a comparator returns, [-1], [0] or [1], as a number. *)
Definition signNumber (z : Z) : float :=
  match z with
  | Z0 => 0
  | Zpos _ => 1
  | Zneg _ => -1
  end.

(** A value assigned to [textContent]: [null] and [undefined] give the
    empty text, anything else its [String]. *)
Definition textContent (numberToString : float → string) (v : val) : string :=
  match v with
  | VUndef | VNull => EmptyString
  | _ => toString numberToString v
  end.

End Builtins.

Import Builtins.

(** ** [src/app.js]: formatting, rendering and loading *)

Module Page.

(** The last cell of a row: the badge of the best value, or the days to
    recoup the price. *)
Inductive roiCell : Type :=
| BestValue
| Days (text : string).

(** A row of the table: the values its template interpolates, in order.
    [highPower] says whether the row carries the badge of a high draw. *)
Record row : Type := Row {
  position : string;
  name : string;
  algo : string;
  hashrate : string;
  power : string;
  highPower : bool;
  price : string;
  efficiency : string;
  dailyNet : string;
  roi : roiCell;
}.

(** What [innerHTML] of the table container is set to: one of the four
    templates of the script, with what it interpolates. *)
Inductive markup : Type :=
| Loading
| EmptyState
| TableOf (rows : list row)
| LoadError (detail : string).

(** What [response.json()] gives: a rejection, a value that is not an
    array, or an array of records. *)
Inductive body : Type :=
| BadJson (message : string)
| NotArray
| ArrayOf (data : list obj).

(** What [fetch(endpoint)] gives: a rejection, or a response. *)
Inductive fetched : Type :=
| Rejected (message : string)
| Response (ok : bool) (status : float) (statusText : string) (json : body).

(** How [fetchGpusFromSources] ends: it returns [data] after setting
    [lastDataSource], or throws an error with [message]. *)
Inductive loaded : Type :=
| Loaded (lastDataSource : string) (data : list obj)
| Failed (message : string).

(** The globals of the script and the table container, [None] when the
    document has no such element. *)
Record state : Type := State {
  gpus : list obj;
  lastDataSource : string;
  container : option markup;
}.

Section Script.
Variable stringToNumber : string → float.
Variable numberToString : float → string.
(** [n.toLocaleString("es-AR", ...)] with [digits] fraction digits, and
    with the currency style. *)
Variable localeNumber : float → nat → string.
Variable localeCurrency : float → string.
(** The message of an error that the engine throws, which the engine
    words. *)
Variable errorMessage : exn → string.
(** What each endpoint answers. *)
Variable fetch : string → fetched.

Definition formatCurrency (ars : val) : completion string :=
  toLocaleString localeCurrency ars.

(** [formatNumber(n, digits = 2)]. *)
Definition formatNumber (n : val) (digits : option nat) : completion string :=
  let digits := default 2 digits in
  if negb (PrimFloat.is_finite (toNumber stringToNumber n)) then Returns "—"
  else toLocaleStringDigits localeNumber digits n.

(** The callback of [filtered.map] in [buildTable]. *)
Definition tableRow (index : nat) (gpu : obj) : completion row :=
  let m := App.gpuMetrics stringToNumber gpu in
  let isBest := Nat.eqb index 0 in
  let highPower := greaterThan stringToNumber (get gpu "power") (VNum 200) in
  algo ← match get gpu "algo" with
         | VStr a => Returns (toUpperCase a)
         | _ => Throws TypeError
         end;
  price ← formatCurrency (get gpu "priceArs");
  efficiency ← formatNumber (get m "efficiency") (Some 2);
  dailyNet ← formatCurrency (get m "dailyNetArs");
  roi ← (if isBest then Returns BestValue
         else text ← formatNumber (get m "roiDays") (Some 0);
              Returns (Days (text +:+ " días")));
  Returns {|
    position := numberToString (ofNat index + 1);
    name := toString numberToString (get gpu "name");
    algo := algo;
    hashrate := toString numberToString (get gpu "hashrate") +:+ " MH/s";
    power := toString numberToString (get gpu "power") +:+ " W";
    highPower := highPower;
    price := price;
    efficiency := efficiency;
    dailyNet := dailyNet;
    roi := roi;
  |}.

(** [filtered.map(callback)], from [index] on. *)
Fixpoint tableRows (index : nat) (filtered : list obj) : completion (list row) :=
  match filtered with
  | [] => Returns []
  | gpu :: rest =>
      r ← tableRow index gpu;
      rs ← tableRows (S index) rest;
      Returns (r :: rs)
  end.

(** [buildTable(filtered)]: the container after the call. *)
Definition buildTable (container : option markup) (filtered : list obj)
    : completion (option markup) :=
  match container with
  | None => Returns None
  | Some _ =>
      match filtered with
      | [] => Returns (Some EmptyState)
      | _ =>
          rows ← tableRows 0 filtered;
          Returns (Some (TableOf rows))
      end
  end.

(** [applyFilters()] with its rendering: the container after the call. *)
Definition applyFilters (gpus : list obj) (c : App.controls) (container : option markup)
    : completion (option markup) :=
  result ← App.applyFilters stringToNumber gpus c;
  buildTable container result.

(** [resolveApiCandidates()]: [apiParam] is the query parameter [api]
    ([None] when absent) and [apiBase] is [window.BESTVALUEGPU_API_BASE]
    ([None] when undefined). *)
Definition resolveApiCandidates (apiParam apiBase : option string) : list string :=
  let explicit := if truthy apiParam then apiParam else apiBase in
  let candidates :=
    if truthy explicit
    then [dropTrailingSlash (default EmptyString explicit) +:+ "/gpus"]
    else [] in
  spreadSet (candidates ++ ["/api/gpus"; "data/gpus.json"]).

(** One turn of the loop of [fetchGpusFromSources]: the data, or the
    message of the error caught. *)
Definition attempt (endpoint : string) : string + list obj :=
  match fetch endpoint with
  | Rejected message => inl message
  | Response ok status statusText json =>
      if negb ok then inl (numberToString status +:+ " " +:+ statusText)
      else
        match json with
        | BadJson message => inl message
        | NotArray => inl "Formato de datos inválido"
        | ArrayOf data => inr data
        end
  end.

(** The loop over the candidates: the endpoints fetched, in order, and
    how the call ends. [errors] are the lines collected so far. *)
Fixpoint fetchLoop (candidates : list string) (errors : list string)
    : list string * loaded :=
  match candidates with
  | [] => ([], Failed (join newline errors))
  | endpoint :: rest =>
      match attempt endpoint with
      | inr data => ([endpoint], Loaded endpoint data)
      | inl message =>
          let (fetchedLater, outcome) :=
            fetchLoop rest (errors ++ [endpoint +:+ ": " +:+ message]) in
          (endpoint :: fetchedLater, outcome)
      end
  end.

Definition fetchGpusFromSources (apiParam apiBase : option string) : list string * loaded :=
  fetchLoop (resolveApiCandidates apiParam apiBase) [].

(** The container after [container.innerHTML = m], when there is one. *)
Definition show (m : markup) (container : option markup) : option markup :=
  match container with Some _ => Some m | None => None end.

(** [loadGpus()]: the state after the call. *)
Definition loadGpus (apiParam apiBase : option string) (c : App.controls) (st : state) : state :=
  let container := show Loading (container st) in
  match (fetchGpusFromSources apiParam apiBase).2 with
  | Loaded endpoint data =>
      match applyFilters data c container with
      | Returns container' => State data endpoint container'
      | Throws error =>
          State data endpoint (show (LoadError (breakLines (errorMessage error))) container)
      end
  | Failed message =>
      State (gpus st) (lastDataSource st) (show (LoadError (breakLines message)) container)
  end.
End Script.

End Page.

(** ** The table script: display, search and the column headers *)

Module TableUi.

(** The globals of the script and the rows of the table body, each row the
    texts of its cells; [None] when the document has no table body.
    [currentDisplayed] is never the array [gpuData] itself: it is a copy or
    the result of a filter, so sorting it leaves [gpuData] in its order. *)
Record state : Type := State {
  gpuData : list obj;
  currentDisplayed : list obj;
  currentSortKey : option string;
  currentSortOrder : string;
  tbody : option (list (list string));
}.

Section Script.
Variable stringToNumber : string → float.
Variable numberToString : float → string.
Variable toFixed : float → nat → string.
Variable mathRound : float → float.

(** The array [cells] of [displayTable]: [gpu.efficiency.toFixed(2)] throws
    a TypeError when [gpu.efficiency] is not a number. *)
Definition rowCells (gpu : obj) : completion (list string) :=
  match get gpu "efficiency" with
  | VNum efficiency =>
      Returns [
        textContent numberToString (get gpu "name");
        textContent numberToString (get gpu "algo");
        textContent numberToString (get gpu "hashrate");
        textContent numberToString (get gpu "power");
        toFixed efficiency 2;
        textContent numberToString (get gpu "priceArs");
        textContent numberToString (get gpu "dailyProfit");
        textContent numberToString (get gpu "roi")
      ]
  | _ => Throws TypeError
  end.

(** [dataArray.forEach(...)]: each row is appended as soon as it is built,
    so the rows before a throw stay in the table body. *)
Fixpoint appendRows (rows : list (list string)) (dataArray : list obj)
    : completion unit * list (list string) :=
  match dataArray with
  | [] => (Returns (), rows)
  | gpu :: rest =>
      match rowCells gpu with
      | Returns cells => appendRows (rows ++ [cells]) rest
      | Throws e => (Throws e, rows)
      end
  end.

(** [displayTable(dataArray)]: its completion and the table body after
    the call. *)
Definition displayTable (tbody : option (list (list string))) (dataArray : list obj)
    : completion unit * option (list (list string)) :=
  match tbody with
  | None => (Returns (), None)
  | Some _ => let (r, rows) := appendRows [] dataArray in (r, Some rows)
  end.

(** The comparator [compareValues(key, order)] as [sort] receives it. *)
Definition sorter (key order : string) (a b : obj) : float :=
  signNumber (Table.compareValues stringToNumber numberToString key (Some order) a b).

(** [applySearchFilter()]: [searchInput] is the text of the search box,
    [None] when the document has none. *)
Definition applySearchFilter (searchInput : option string) (st : state)
    : completion unit * state :=
  let query := match searchInput with Some v => toLowerCase v | None => EmptyString end in
  match filterE (App.nameMatches query) (gpuData st) with
  | Throws e => (Throws e, st)
  | Returns shown =>
      let shown :=
        if truthy (currentSortKey st)
        then arraySort (sorter (default EmptyString (currentSortKey st)) (currentSortOrder st)) shown
        else shown in
      let (r, tbody') := displayTable (tbody st) shown in
      (r, State (gpuData st) shown (currentSortKey st) (currentSortOrder st) tbody')
  end.

(** The click listener of a column header whose [data-key] attribute is
    [dataKey] ([None] when the header has none). *)
Definition headerClick (dataKey : option string) (st : state) : completion unit * state :=
  if negb (truthy dataKey) then (Returns (), st)
  else
    let sortKey := default EmptyString dataKey in
    let same := App.caseIs (currentSortKey st) sortKey in
    let key := if same then currentSortKey st else Some sortKey in
    let order :=
      if same
      then (if String.eqb (currentSortOrder st) "asc" then "desc" else "asc")
      else "asc" in
    let shown := arraySort (sorter sortKey order) (currentDisplayed st) in
    let (r, tbody') := displayTable (tbody st) shown in
    (r, State (gpuData st) shown key order tbody').

(** [loadGpus()]: [data] is the array the data file holds, [None] when the
    fetch, the parsing or the enrichment fails; any error is caught and
    logged. *)
Definition loadGpus (data : option (list obj)) (st : state) : state :=
  match data with
  | None => st
  | Some data =>
      let gpuData := Table.enrichGpuData stringToNumber toFixed mathRound data in
      let (_, tbody') := displayTable (tbody st) gpuData in
      State gpuData gpuData (currentSortKey st) (currentSortOrder st) tbody'
  end.
End Script.

(** The state the script starts in. *)
Definition initial (tbody : option (list (list string))) : state :=
  State [] [] None "asc" tbody.

End TableUi.

(** ** The sort of one engine

    The sort of V8 (its [array-sort.tq]) on an array of fewer than 64
    elements, none of them [undefined]: such an array is one run of its
    TimSort, which finds the run the array starts with and inserts the
    other elements into it by binary search. With a consistent comparator
    the result is the one of [Js.arraySort]; the definitions say what the
    result is with another. *)

Module V8.

Section Sort.
Context {A : Type}.
Variable comparefn : A → A → float.

(** [sortState.Compare(x, y)]: the number the comparator returns, a NaN
    read as [0]. *)
Definition compare (x y : A) : float :=
  let v := comparefn x y in
  if PrimFloat.is_nan v then 0%float else v.

(** The loop of [CountAndMakeRun]: how many of the elements [rest] after
    [previousElement] extend the run. *)
Fixpoint extendRun (isDescending : bool) (previousElement : A) (rest : list A) : nat :=
  match rest with
  | [] => 0
  | currentElement :: rest' =>
      let order := compare currentElement previousElement in
      let stop :=
        if isDescending then PrimFloat.leb 0 order else PrimFloat.ltb order 0 in
      if stop then 0 else S (extendRun isDescending currentElement rest')
  end.

(** [CountAndMakeRun(0, length)]: the length of the run the array starts
    with, ascending or strictly descending, and the array with that run
    reversed when it is descending. *)
Definition countAndMakeRun (workArray : list A) : list A * nat :=
  match workArray with
  | elementHigh :: elementLow :: rest =>
      let order := compare elementLow elementHigh in
      let isDescending := PrimFloat.ltb order 0 in
      let runLength := S (S (extendRun isDescending elementLow rest)) in
      (if isDescending
       then reverse (take runLength workArray) ++ drop runLength workArray
       else workArray,
       runLength)
  | _ => (workArray, length workArray)
  end.

(** The binary search of [BinaryInsertionSort]: where [pivot] belongs in
    [workArray[left..right)]. Each turn halves the range, so [fuel] turns
    are enough when [fuel] is at least [right - left]. *)
Fixpoint search (fuel : nat) (workArray : list A) (pivot : A) (left right : nat) : nat :=
  match fuel with
  | O => left
  | S fuel' =>
      if (left <? right)%nat then
        let mid := (left + (right - left) / 2)%nat in
        match workArray !! mid with
        | Some midElement =>
            if PrimFloat.ltb (compare pivot midElement) 0
            then search fuel' workArray pivot left mid
            else search fuel' workArray pivot (mid + 1)%nat right
        | None => left
        end
      else left
  end.

(** One turn of the outer loop of [BinaryInsertionSort]: the element at
    [start] is put where it belongs among the elements before it, and the
    elements from there to [start] move up by one. *)
Definition insertPivot (workArray : list A) (start : nat) : list A :=
  match workArray !! start with
  | Some pivot =>
      let left := search start workArray pivot 0 start in
      take left workArray ++ pivot :: drop left (take start workArray)
        ++ drop (S start) workArray
  | None => workArray
  end.

(** [BinaryInsertionSort(0, start, high)], for [0 < start]: the turns for
    [start], [start + 1], ... up to [high]. *)
Fixpoint binaryInsertionSort (turns : nat) (workArray : list A) (start : nat) : list A :=
  match turns with
  | O => workArray
  | S turns' => binaryInsertionSort turns' (insertPivot workArray start) (S start)
  end.

(** [ArrayTimSortImpl] on fewer than 64 elements, where the minimal run
    length is the length of the array: the first run, extended to the whole
    array by binary insertion. [None] on a longer array, whose runs are
    merged, which is not modelled. *)
Definition arrayTimSort (workArray : list A) : option (list A) :=
  let length := length workArray in
  if (length <? 2)%nat then Some workArray
  else if (64 <=? length)%nat then None
  else
    let '(workArray, currentRunLength) := countAndMakeRun workArray in
    Some (binaryInsertionSort (length - currentRunLength) workArray currentRunLength).
End Sort.

(** [applyFilters] of [src/app.js] as V8 runs it: the array it hands to
    [buildTable], [None] when there are 64 records or more to sort. *)
Definition applyFilters (stringToNumber : string → float) (gpus : list obj) (c : App.controls)
    : completion (option (list obj)) :=
  result ← App.filterStep gpus c;
  Returns (arrayTimSort (App.sortComparator stringToNumber (App.sortSelect c)) result).

End V8.

(** ** Vocabulary of the further properties *)

Module Shown.

(** A record [buildTable] can render: its [algo] is a string and its
    [priceArs] is neither [undefined] nor [null]. *)
Definition renderable (gpu : obj) : bool :=
  match get gpu "algo", get gpu "priceArs" with
  | VStr _, (VUndef | VNull) => false
  | VStr _, _ => true
  | _, _ => false
  end.

(** The text of the cell that stands for no number. *)
Definition dash : string := "—".

(** A record whose column [key] holds a number that is not NaN, and the
    number it holds. *)
Definition hasNumber (key : string) (gpu : obj) : bool :=
  match get gpu key with VNum x => negb (PrimFloat.is_nan x) | _ => false end.

Definition numberOf (key : string) (gpu : obj) : float :=
  match get gpu key with VNum x => x | _ => nan end.

(** [x] and [y] follow each other in the order [order] of [le]:
    ascending for ["asc"], descending for anything else. *)
Definition inOrder {A} (order : string) (le : A → A → bool) (x y : A) : bool :=
  if String.eqb order "asc" then le x y else le y x.

(** Whether an endpoint answers with an array of records. *)
Definition answers (fetch : string → Page.fetched) (endpoint : string) : bool :=
  match fetch endpoint with
  | Page.Response true _ _ (Page.ArrayOf _) => true
  | _ => false
  end.

End Shown.

(** ** Sample environments *)

Module Sample.

Definition localeNumber : float → nat → string := λ _ _, "n".
Definition localeCurrency : float → string := λ _, "$".
Definition errorMessage (error : exn) : string :=
  match error with
  | TypeError => "TypeError"
  | RangeError => "RangeError"
  end.

(** A record that loses money each day: its energy costs more than it
    earns. *)
Definition hungry : obj := Example.gpu "R9 390" "ethash" 30 275 80000 0.25.

(** Seven cards that draw 125 W and earn 1.25 USD a day, a net of 1010 a
    day: [g0] pays back in two days, [g4] has no price, so that its
    [roiDays] is NaN, and the others pay back in one day. *)
Definition card (name : string) (priceArs : float) : obj :=
  Example.gpu name "ethash" 50 125 priceArs 1.25.

Definition g0 : obj := card "G0" 2020.
Definition g1 : obj := card "G1" 1010.
Definition g2 : obj := card "G2" 1010.
Definition g3 : obj := card "G3" 1010.
Definition g4 : obj := delete "priceArs" (card "G4" 0).
Definition g5 : obj := card "G5" 1010.
Definition g6 : obj := card "G6" 1010.

Definition sevenCards : list obj := [g0; g1; g2; g3; g4; g5; g6].

Definition byRoi : App.controls := App.Controls None None (Some "roi").




(** The rows of the table of [Example.fast] and [hungry]. *)
Definition hungryRows : list Page.row :=
  Eval vm_compute in
    match Page.buildTable Example.stringToNumber Example.numberToString
            localeNumber localeCurrency (Some Page.Loading) [Example.fast; hungry] with
    | Returns (Some (Page.TableOf rows)) => rows
    | _ => []
    end.

(** A server at [/api/gpus] that is down, and the data file in place. *)
Definition fetch (endpoint : string) : Page.fetched :=
  if String.eqb endpoint "data/gpus.json"
  then Page.Response true 200 "OK" (Page.ArrayOf [Example.slow; Example.fast])
  else if String.eqb endpoint "/api/gpus"
  then Page.Response false 503 "Service Unavailable" Page.NotArray
  else Page.Rejected "Failed to fetch".

(** A record with a name and nothing else, and a server that answers with
    it at every endpoint. *)
Definition bare : obj := {[ "name" := VStr "bare" ]}.

Definition fetchBare (endpoint : string) : Page.fetched :=
  Page.Response true 200 "OK" (Page.ArrayOf [bare]).

(** The table script after it has loaded two records into an empty table
    body. *)
Definition loadedTable : TableUi.state :=
  TableUi.loadGpus Example.stringToNumber Example.numberToString Example.toFixed
    Example.mathRound (Some [Example.fast; Example.slow]) (TableUi.initial (Some [])).

(** A record without a name, and a state of the script that holds it. *)
Definition nameless : obj := {[ "algo" := VStr "ethash" ]}.

Definition namelessTable : TableUi.state :=
  TableUi.State [Example.fast; nameless] [Example.fast] None "asc" (Some []).

(** No endpoint answers. *)
Definition offline (endpoint : string) : Page.fetched := Page.Rejected "Failed to fetch".

End Sample.
(** * Properties *)

(** ** IEEE comparisons and the special cases of the operations *)

Section FloatFacts.
Implicit Types x y : float.

Lemma SFcompare_swap (a b : spec_float) :
  SFcompare b a = CompOpp <$> SFcompare a b.
Proof.
  destruct a as [[]|[]| |[] ma ea], b as [[]|[]| |[] mb eb]; simpl; try reflexivity.
  all: rewrite (Z.compare_antisym ea eb); destruct (ea ?= eb)%Z; simpl; try reflexivity.
  all: change Eq with (CompOpp Eq) at 1;
    rewrite <- (Pos.compare_cont_antisym ma mb Eq), ?CompOpp_involutive; reflexivity.
Qed.

(** [<] is asymmetric. *)
Lemma float_ltb_asym x y : (x <? y)%float = true → (y <? x)%float = false.
Proof.
  rewrite !ltb_spec. unfold SFltb. rewrite (SFcompare_swap (Prim2SF x)).
  by destruct (SFcompare (Prim2SF x) (Prim2SF y)) as [[]|].
Qed.

(** [x <= y] excludes [y < x]. *)
Lemma float_leb_not_gt x y : (x <=? y)%float = true → (y <? x)%float = false.
Proof.
  rewrite leb_spec, ltb_spec. unfold SFleb, SFltb.
  rewrite (SFcompare_swap (Prim2SF x)).
  by destruct (SFcompare (Prim2SF x) (Prim2SF y)) as [[]|].
Qed.

(** A positive number divided by [+0] is [+Infinity]. *)
Lemma float_pos_div_zero x : (0 <? x)%float = true → (x / 0)%float = infinity.
Proof.
  intros Hx. apply Prim2SF_inj. rewrite div_spec.
  rewrite ltb_spec in Hx. unfold SFltb in Hx.
  change (Prim2SF 0) with (S754_zero false) in *.
  change (Prim2SF infinity) with (S754_infinity false).
  by destruct (Prim2SF x) as [[]|[]| |[] m e].
Qed.

(** A positive number divided by [-0] is [-Infinity]. *)
Lemma float_pos_div_neg_zero x : (0 <? x)%float = true → (x / -0)%float = neg_infinity.
Proof.
  intros Hx. apply Prim2SF_inj. rewrite div_spec.
  rewrite ltb_spec in Hx. unfold SFltb in Hx.
  change (Prim2SF 0) with (S754_zero false) in *.
  change (Prim2SF (-0)) with (S754_zero true).
  change (Prim2SF neg_infinity) with (S754_infinity true).
  by destruct (Prim2SF x) as [[]|[]| |[] m e].
Qed.

(** The numbers equal to [0] are the two zeros. *)
Lemma float_eqb_zero x : (x =? 0)%float = true → x = 0%float ∨ x = (-0)%float.
Proof.
  rewrite FloatAxioms.eqb_spec. unfold SFeqb.
  change (Prim2SF 0) with (S754_zero false).
  destruct (Prim2SF x) as [[]|[]| |[] m e] eqn:Hx; try done; intros _.
  - right. apply Prim2SF_inj. by rewrite Hx.
  - left. apply Prim2SF_inj. by rewrite Hx.
Qed.

(** [x - x] is [+0] or NaN, never positive. *)
Lemma float_sub_diag_not_pos x : (0 <? x - x)%float = false.
Proof.
  rewrite ltb_spec, sub_spec. unfold SFltb.
  change (Prim2SF 0) with (S754_zero false).
  destruct (Prim2SF x) as [[]|[]| |[] m e]; try reflexivity.
  all: unfold SF64sub, SFsub, cond_Zopp; simpl.
  all: rewrite ?Z.sub_diag, ?Z.add_opp_diag_r, ?Z.sub_opp_r, ?Z.add_opp_diag_l; try reflexivity.
Qed.

(** A number below [+Infinity] sorts before it under [a - b]. *)
Lemma float_sub_infinity_not_pos x :
  (x <? infinity)%float = true → (0 <? x - infinity)%float = false.
Proof.
  rewrite !ltb_spec, sub_spec. unfold SFltb.
  change (Prim2SF 0) with (S754_zero false).
  change (Prim2SF infinity) with (S754_infinity false).
  by destruct (Prim2SF x) as [[]|[]| |[] m e].
Qed.

Lemma float_infinity_sub_pos x :
  (x <? infinity)%float = true → (0 <? infinity - x)%float = true.
Proof.
  rewrite !ltb_spec, sub_spec. unfold SFltb.
  change (Prim2SF 0) with (S754_zero false).
  change (Prim2SF infinity) with (S754_infinity false).
  by destruct (Prim2SF x) as [[]|[]| |[] m e].
Qed.
End FloatFacts.

(** ** The metrics calculator *)

Section MetricsFacts.
Variable stringToNumber : string → float.

#[local] Abbreviation field := (App.field stringToNumber).
#[local] Abbreviation gpuMetrics := (App.gpuMetrics stringToNumber).

Lemma gpuMetrics_efficiency gpu :
  get (gpuMetrics gpu) "efficiency" = VNum (field gpu "hashrate" / field gpu "power").
Proof. reflexivity. Qed.

Lemma gpuMetrics_dailyRevenueArs gpu :
  get (gpuMetrics gpu) "dailyRevenueArs" = VNum (field gpu "dailyProfitUsd" * App.USD_ARS).
Proof. reflexivity. Qed.

Lemma gpuMetrics_dailyEnergyCostArs gpu :
  get (gpuMetrics gpu) "dailyEnergyCostArs"
  = VNum (field gpu "power" / 1000 * 24 * App.ENERGY_ARS_PER_KWH).
Proof. reflexivity. Qed.

Lemma gpuMetrics_dailyNetArs gpu :
  get (gpuMetrics gpu) "dailyNetArs"
  = VNum (field (gpuMetrics gpu) "dailyRevenueArs" - field (gpuMetrics gpu) "dailyEnergyCostArs").
Proof. reflexivity. Qed.

Lemma gpuMetrics_roiDays gpu :
  get (gpuMetrics gpu) "roiDays"
  = VNum (if (0 <? field (gpuMetrics gpu) "dailyNetArs")%float
          then (field gpu "priceArs" / field (gpuMetrics gpu) "dailyNetArs")%float
          else infinity).
Proof. reflexivity. Qed.

Lemma gpuMetrics_score gpu :
  get (gpuMetrics gpu) "score"
  = VNum (field (gpuMetrics gpu) "dailyNetArs" * field (gpuMetrics gpu) "efficiency").
Proof. reflexivity. Qed.

(** The metrics object has no [hashrate] and no [priceArs]. *)
Lemma gpuMetrics_no_hashrate gpu : get (gpuMetrics gpu) "hashrate" = VUndef.
Proof. reflexivity. Qed.

Lemma gpuMetrics_no_priceArs gpu : get (gpuMetrics gpu) "priceArs" = VUndef.
Proof. reflexivity. Qed.

(** C1. For every record, [gpuMetrics] returns a number as [roiDays]: the
    quotient [priceArs / dailyNetArs] when [dailyNetArs > 0], and [Infinity]
    when [dailyNetArs <= 0] (and whenever [dailyNetArs > 0] is false, NaN
    included). The quotient is taken only under a positive denominator, and
    the function is total: an unprofitable record raises nothing. *)
Theorem gpuMetrics_roiDays_rule (gpu : obj) :
  let dailyNetArs := field (gpuMetrics gpu) "dailyNetArs" in
  ∃ roiDays : float,
    get (gpuMetrics gpu) "roiDays" = VNum roiDays ∧
    ((0 <? dailyNetArs)%float = true → roiDays = (field gpu "priceArs" / dailyNetArs)%float) ∧
    ((dailyNetArs <=? 0)%float = true → roiDays = infinity) ∧
    ((0 <? dailyNetArs)%float = false → roiDays = infinity).
Proof.
  intros net. eexists. split; [apply gpuMetrics_roiDays|].
  fold net. repeat split.
  - by intros ->.
  - intros Hle. by rewrite (float_leb_not_gt _ _ Hle).
  - by intros ->.
Qed.

(** C10, amended. [gpuMetrics] is total, and on a record whose power is a
    zero and whose hash rate is positive it returns the quotient
    [hashrate / power] as [efficiency], which is [Infinity] for the zero
    [+0] and [-Infinity] for the zero [-0], and the power itself, a zero,
    as [dailyEnergyCostArs], with the other metrics computed from these: the
    net is the revenue minus that zero, [roiDays] follows the sentinel rule
    and the score is the net times the efficiency. *)
Theorem gpuMetrics_power_zero (gpu : obj) :
  (field gpu "power" =? 0)%float = true →
  (0 <? field gpu "hashrate")%float = true →
  let m := gpuMetrics gpu in
  let power := field gpu "power" in
  let efficiency := if PrimFloat.get_sign power then neg_infinity else infinity in
  let dailyRevenueArs := (field gpu "dailyProfitUsd" * App.USD_ARS)%float in
  let dailyNetArs := (dailyRevenueArs - power)%float in
  (power = 0%float ∨ power = (-0)%float) ∧
  get m "efficiency" = VNum efficiency ∧
  get m "dailyEnergyCostArs" = VNum power ∧
  get m "dailyRevenueArs" = VNum dailyRevenueArs ∧
  get m "dailyNetArs" = VNum dailyNetArs ∧
  get m "roiDays"
  = VNum (if (0 <? dailyNetArs)%float then (field gpu "priceArs" / dailyNetArs)%float else infinity) ∧
  get m "score" = VNum (dailyNetArs * efficiency).
Proof.
  intros Hpower Hhash m power eff rev net.
  assert (Hzero : power = 0%float ∨ power = (-0)%float) by by apply float_eqb_zero.
  assert (Heff : get m "efficiency" = VNum eff).
  { subst m eff. rewrite gpuMetrics_efficiency. fold power.
    destruct Hzero as [->| ->]; simpl;
      [by rewrite float_pos_div_zero|by rewrite float_pos_div_neg_zero]. }
  assert (Hcost : get m "dailyEnergyCostArs" = VNum power).
  { subst m. rewrite gpuMetrics_dailyEnergyCostArs. fold power.
    by destruct Hzero as [->| ->]. }
  assert (Hnet : get m "dailyNetArs" = VNum net).
  { subst m. rewrite gpuMetrics_dailyNetArs. unfold App.field at 1 2.
    by rewrite Hcost, gpuMetrics_dailyRevenueArs. }
  split_and!; try done.
  - subst m. rewrite gpuMetrics_roiDays. unfold App.field at 1 3. by rewrite Hnet.
  - subst m. rewrite gpuMetrics_score. unfold App.field at 1 2. by rewrite Hnet, Heff.
Qed.
End MetricsFacts.

(** The rule at the worked example (a positive net) and at the same record
    with no daily profit (a negative net). *)
Lemma gpuMetrics_roiDays_rule_witness :
  get (App.gpuMetrics Example.stringToNumber Example.gpuX) "roiDays" = VNum (500000 / 616) ∧
  get (App.gpuMetrics Example.stringToNumber Example.gpuX0) "roiDays" = VNum infinity.
Proof.
  split.
  - destruct (gpuMetrics_roiDays_rule Example.stringToNumber Example.gpuX)
      as (roi & -> & Hpos & _ & _).
    by rewrite (Hpos eq_refl).
  - destruct (gpuMetrics_roiDays_rule Example.stringToNumber Example.gpuX0)
      as (roi & -> & _ & Hneg & _).
    by rewrite (Hneg eq_refl).
Defined.

(** A card that draws no power: its efficiency is infinite, and with the
    other zero for its power it is infinite the other way. *)
Lemma gpuMetrics_power_zero_witness :
  get (App.gpuMetrics Example.stringToNumber Example.unplugged) "efficiency" = VNum infinity ∧
  get (App.gpuMetrics Example.stringToNumber Example.unplugged) "dailyEnergyCostArs" = VNum 0 ∧
  get (App.gpuMetrics Example.stringToNumber Example.unpluggedNegative) "efficiency"
  = VNum neg_infinity ∧
  get (App.gpuMetrics Example.stringToNumber Example.unpluggedNegative) "dailyEnergyCostArs"
  = VNum (-0).
Proof.
  pose proof (gpuMetrics_power_zero Example.stringToNumber Example.unplugged eq_refl eq_refl)
    as (_ & Heff & Hcost & _).
  pose proof (gpuMetrics_power_zero Example.stringToNumber Example.unpluggedNegative
                eq_refl eq_refl)
    as (_ & Heff' & Hcost' & _).
  split_and!; [exact Heff|exact Hcost|exact Heff'|exact Hcost'].
Defined.

(** C10, as stated, fails: a record whose power is the zero [-0], which
    is equal to [0] and which JSON carries, and whose hash rate is positive
    has [-Infinity] for its efficiency, a number below every other, and not
    [Infinity]. *)
Lemma gpuMetrics_power_negative_zero :
  (App.field Example.stringToNumber Example.unpluggedNegative "power" =? 0)%float = true ∧
  (0 <? App.field Example.stringToNumber Example.unpluggedNegative "hashrate")%float = true ∧
  get (App.gpuMetrics Example.stringToNumber Example.unpluggedNegative) "efficiency"
  = VNum neg_infinity ∧
  (neg_infinity =? infinity)%float = false ∧
  (neg_infinity <? 0)%float = true.
Proof. repeat split. Qed.

(** C5, as stated, fails: the energy cost of the worked example is the
    double next above 384 (it prints as 384.00000000000006), because
    [200 / 1000 * 24] rounds up to 4.800000000000001. *)
Lemma worked_example_energy_cost_above_384 :
  get (App.gpuMetrics Example.stringToNumber Example.gpuX) "dailyEnergyCostArs"
  = VNum 0x1.8000000000001p+8 ∧
  (0x1.8000000000001p+8 =? 384)%float = false ∧
  (384 <? 0x1.8000000000001p+8)%float = true.
Proof. repeat split. Qed.

(** C5, amended. At the worked example [gpuMetrics] returns exactly
    [efficiency = 0.5], [dailyRevenueArs = 1000], [dailyNetArs = 616] and
    [score = 308]; [dailyEnergyCostArs] is 384.00000000000006, within one
    unit in the last place of 384, and [roiDays] is 811.6883116883117, between
    811.6875 and 811.703125. With [dailyProfitUsd = 0] the net is
    -384.00000000000006, [roiDays] is [Infinity] and the score is
    -192.00000000000003, each within one unit in the last place of the
    stated -384 and -192. *)
Theorem gpuMetrics_worked_example (stringToNumber : string → float) :
  let m := App.gpuMetrics stringToNumber Example.gpuX in
  let m0 := App.gpuMetrics stringToNumber Example.gpuX0 in
  get m "efficiency" = VNum 0.5 ∧
  get m "dailyRevenueArs" = VNum 1000 ∧
  get m "dailyEnergyCostArs" = VNum 0x1.8000000000001p+8 ∧
  (abs (0x1.8000000000001p+8 - 384) <=? 0x1p-44)%float = true ∧
  get m "dailyNetArs" = VNum 616 ∧
  get m "roiDays" = VNum 0x1.95d81a98ef607p+9 ∧
  (811.6875 <? 0x1.95d81a98ef607p+9)%float = true ∧
  (0x1.95d81a98ef607p+9 <? 811.703125)%float = true ∧
  get m "score" = VNum 308 ∧
  get m0 "dailyNetArs" = VNum (-0x1.8000000000001p+8) ∧
  (abs (-0x1.8000000000001p+8 - -384) <=? 0x1p-44)%float = true ∧
  get m0 "roiDays" = VNum infinity ∧
  get m0 "score" = VNum (-0x1.8000000000001p+7) ∧
  (abs (-0x1.8000000000001p+7 - -192) <=? 0x1p-45)%float = true.
Proof. repeat split. Qed.

(** ** Strings *)

Lemma isWhiteSpace_lowerChar c : isWhiteSpace (lowerChar c) = isWhiteSpace c.
Proof. by destruct c as [[] [] [] [] [] [] [] []]. Qed.

Lemma toLowerCase_empty s : toLowerCase s = EmptyString ↔ s = EmptyString.
Proof. by destruct s. Qed.

Lemma truthyStr_toLowerCase s : truthyStr (toLowerCase s) = truthyStr s.
Proof. by destruct s. Qed.

Lemma trimStart_toLowerCase s : trimStart (toLowerCase s) = toLowerCase (trimStart s).
Proof.
  induction s as [|c s IH]; [done|]. simpl.
  rewrite isWhiteSpace_lowerChar. by destruct (isWhiteSpace c).
Qed.

Lemma trimEnd_toLowerCase s : trimEnd (toLowerCase s) = toLowerCase (trimEnd s).
Proof.
  induction s as [|c s IH]; [done|]. simpl.
  rewrite IH, isWhiteSpace_lowerChar.
  destruct (trimEnd s) as [|c' r]; simpl; [|done].
  by destruct (isWhiteSpace c).
Qed.

(** Lower-casing and trimming commute. *)
Lemma trim_toLowerCase s : trim (toLowerCase s) = toLowerCase (trim s).
Proof. unfold trim. by rewrite trimStart_toLowerCase, trimEnd_toLowerCase. Qed.

(** Lower-casing forgets an upper-casing: two texts that are the same in
    capitals are the same in lower case. *)
Lemma lowerChar_upperChar (c : ascii) : lowerChar (upperChar c) = lowerChar c.
Proof. by destruct c as [[] [] [] [] [] [] [] []]. Qed.

Lemma toLowerCase_toUpperCase (s : string) : toLowerCase (toUpperCase s) = toLowerCase s.
Proof. induction s as [|c s IH]; [done|]. simpl. by rewrite IH, lowerChar_upperChar. Qed.

Lemma toUpperCase_eq_toLowerCase (s t : string) :
  toUpperCase s = toUpperCase t → toLowerCase s = toLowerCase t.
Proof.
  intros Heq. by rewrite <- (toLowerCase_toUpperCase s), Heq, toLowerCase_toUpperCase.
Qed.

(** ** The two conditional filters *)

Section FilterFacts.
Implicit Types (gpus : list obj) (gpu : obj).

Lemma filter_filter_andb {A} (p q : A → bool) (l : list A) :
  List.filter q (List.filter p l) = List.filter (λ x, p x && q x) l.
Proof.
  induction l as [|x l IH]; [done|]. simpl.
  destruct (p x); simpl; [|done]. destruct (q x); by rewrite IH.
Qed.

Lemma filter_all_true {A} (p : A → bool) (l : list A) :
  (∀ x, p x = true) → List.filter p l = l.
Proof. intros Hp. induction l as [|x l IH]; [done|]. simpl. by rewrite Hp, IH. Qed.

Lemma elem_of_filter_bool {A} (p : A → bool) (l : list A) (x : A) :
  x ∈ List.filter p l ↔ x ∈ l ∧ p x = true.
Proof. rewrite !list_elem_of_In. apply filter_In. Qed.

(** On records that have names the first filter never throws, and keeps
    the records whose lower-cased name contains [search]. *)
Lemma filterE_nameMatches search gpus :
  forallb Spec.hasName gpus = true →
  filterE (App.nameMatches search) gpus
  = Returns (List.filter
      (λ gpu, match get gpu "name" with
              | VStr name => includes (toLowerCase name) search
              | _ => false
              end) gpus).
Proof.
  induction gpus as [|gpu gpus IH]; [done|]. simpl.
  intros [Hname Hrest]%andb_prop. rewrite (IH Hrest).
  unfold Spec.hasName in Hname. unfold App.nameMatches.
  by destruct (get gpu "name").
Qed.

(** The first record without a name makes the first filter throw. *)
Lemma filterE_nameMatches_throws search gpus :
  forallb Spec.hasName gpus = false →
  filterE (App.nameMatches search) gpus = Throws TypeError.
Proof.
  induction gpus as [|gpu gpus IH]; [done|]. intros Hnames.
  cbn [forallb filterE] in *. unfold Spec.hasName in Hnames at 1.
  change (App.nameMatches search gpu) with
    (match get gpu "name" with
     | VStr name => Returns (includes (toLowerCase name) search)
     | _ => Throws TypeError
     end).
  destruct (get gpu "name"); try done.
  by rewrite (IH Hnames).
Qed.

Lemma whenPresent_nameContains_trim searchText gpu :
  Spec.hasName gpu = true →
  Spec.whenPresent Spec.nameContains (trim <$> searchText) gpu
  = (if truthy (App.searchOf (App.Controls searchText None None))
     then match get gpu "name" with
          | VStr name =>
              includes (toLowerCase name)
                (default EmptyString (App.searchOf (App.Controls searchText None None)))
          | _ => false
          end
     else true).
Proof.
  intros Hname. unfold App.searchOf. destruct searchText as [v|]; simpl; [|done].
  rewrite trim_toLowerCase, truthyStr_toLowerCase.
  unfold Spec.nameContains. by destruct (truthyStr (trim v)).
Qed.

(** [filterStep] returns the records retained, in the order of [gpus]. *)
Lemma filterStep_returns gpus searchText algoFilter sort :
  forallb Spec.hasName gpus = true →
  App.filterStep gpus (App.Controls searchText algoFilter sort)
  = Returns (List.filter (Spec.retained searchText algoFilter) gpus).
Proof.
  intros Hnames. unfold App.filterStep, Spec.retained, Spec.passesBoth.
  rewrite <- filter_filter_andb. simpl.
  assert (Hfirst : (if truthy (App.searchOf (App.Controls searchText algoFilter sort))
      then filterE (App.nameMatches
             (default EmptyString (App.searchOf (App.Controls searchText algoFilter sort)))) gpus
      else Returns gpus)
    = Returns (List.filter (Spec.whenPresent Spec.nameContains (trim <$> searchText)) gpus)).
  { transitivity (Returns (List.filter
      (λ gpu, if truthy (App.searchOf (App.Controls searchText None None))
              then match get gpu "name" with
                   | VStr name =>
                       includes (toLowerCase name)
                         (default EmptyString (App.searchOf (App.Controls searchText None None)))
                   | _ => false
                   end
              else true) gpus)).
    - change (App.searchOf (App.Controls searchText algoFilter sort))
        with (App.searchOf (App.Controls searchText None None)).
      destruct (truthy (App.searchOf (App.Controls searchText None None))).
      + by apply filterE_nameMatches.
      + symmetry. f_equal. by apply filter_all_true.
    - f_equal. clear -Hnames. induction gpus as [|gpu gpus IH]; [done|].
      simpl in Hnames. apply andb_prop in Hnames as [Hname Hrest]. simpl.
      by rewrite <- (whenPresent_nameContains_trim _ _ Hname), (IH Hrest). }
  rewrite Hfirst. simpl. f_equal.
  destruct algoFilter as [a|]; simpl; [|symmetry; by apply filter_all_true].
  unfold Spec.whenPresent.
  destruct (truthyStr a); [done|symmetry; by apply filter_all_true].
Qed.

(** Whatever [filterStep] returns is a selection of [gpus] in their
    order. *)
Lemma filterE_sublist {A} (p : A → completion bool) (l r : list A) :
  filterE p l = Returns r → r `sublist_of` l.
Proof.
  revert r. induction l as [|x l IH]; intros r; simpl.
  - by intros [= <-].
  - destruct (p x) as [b|]; simpl; [|done].
    destruct (filterE p l) as [r'|]; simpl; [|done].
    intros [= <-]. destruct b; [apply sublist_skip|apply sublist_cons]; by apply IH.
Qed.

Lemma filter_bool_sublist {A} (p : A → bool) (l : list A) : List.filter p l `sublist_of` l.
Proof.
  induction l as [|x l IH]; [done|]. simpl.
  destruct (p x); [by apply sublist_skip|by apply sublist_cons].
Qed.

Lemma filterStep_sublist gpus c r :
  App.filterStep gpus c = Returns r → r `sublist_of` gpus.
Proof.
  unfold App.filterStep.
  set (first := if truthy (App.searchOf c) then _ else _).
  assert (Hfirst : ∀ r1, first = Returns r1 → r1 `sublist_of` gpus).
  { subst first. destruct (truthy (App.searchOf c)).
    - apply filterE_sublist.
    - by intros r1 [= <-]. }
  destruct first as [r1|]; simpl; [|done].
  intros [= <-]. specialize (Hfirst r1 eq_refl).
  destruct (truthy (App.algoSelect c)); [|done].
  etrans; [apply filter_bool_sublist|done].
Qed.
End FilterFacts.

(** C4, as stated, fails: the search text [" rtx"] does not occur in the
    lower-cased name ["rtx 3080"], yet the record is retained, because the
    text is trimmed before it is searched for. *)
Lemma filterStep_trims_search_text :
  App.filterStep [Example.fast] (App.Controls (Some " rtx") None None)
  = Returns [Example.fast] ∧
  Spec.nameContains " rtx" Example.fast = false ∧
  Spec.passesBoth (Some " rtx") None Example.fast = false.
Proof. repeat split. Qed.

(** C4, amended. On records that have names, the filtering step retains a
    record if and only if it passes both the name-substring predicate, letter
    case apart, on the search text with its surrounding white space trimmed
    (when the trimmed text is not empty) and the exact algorithm match (when
    the algorithm filter is not empty). The result is the intersection of
    the result under the search text alone and the result under the
    algorithm filter alone, and options that are absent or empty (the search
    text after trimming) retain every record. *)
Theorem filterStep_retains (gpus : list obj) (searchText algoFilter sort : option string) :
  forallb Spec.hasName gpus = true →
  let step s a := App.filterStep gpus (App.Controls s a sort) in
  let both := List.filter (Spec.retained searchText algoFilter) gpus in
  let byName := List.filter (Spec.retained searchText None) gpus in
  let byAlgo := List.filter (Spec.retained None algoFilter) gpus in
  step searchText algoFilter = Returns both ∧
  (∀ gpu, gpu ∈ both ↔ gpu ∈ gpus ∧ Spec.retained searchText algoFilter gpu = true) ∧
  step searchText None = Returns byName ∧
  step None algoFilter = Returns byAlgo ∧
  (∀ gpu, gpu ∈ both ↔ gpu ∈ byName ∧ gpu ∈ byAlgo) ∧
  both = List.filter (Spec.retained None algoFilter) byName ∧
  both = List.filter (Spec.retained searchText None) byAlgo ∧
  (truthy (trim <$> searchText) = false → truthy algoFilter = false → both = gpus).
Proof.
  intros Hnames step both byName byAlgo.
  assert (Hand : ∀ gpu, Spec.retained searchText algoFilter gpu
    = Spec.retained searchText None gpu && Spec.retained None algoFilter gpu).
  { intros gpu. unfold Spec.retained, Spec.passesBoth. simpl. by rewrite andb_true_r. }
  split_and!.
  - by apply filterStep_returns.
  - intros gpu. apply elem_of_filter_bool.
  - by apply filterStep_returns.
  - by apply filterStep_returns.
  - intros gpu. subst both byName byAlgo.
    rewrite !elem_of_filter_bool, Hand, andb_true_iff. tauto.
  - subst both byName. rewrite filter_filter_andb. clear -Hand.
    induction gpus as [|gpu gpus IH]; [done|]. simpl. by rewrite Hand, IH.
  - subst both byAlgo. rewrite filter_filter_andb. clear -Hand.
    induction gpus as [|gpu gpus IH]; [done|]. simpl.
    by rewrite Hand, IH, (andb_comm (Spec.retained None algoFilter gpu)).
  - intros Hs Ha. subst both. apply filter_all_true. intros gpu.
    unfold Spec.retained, Spec.passesBoth, Spec.whenPresent.
    destruct searchText as [s|], algoFilter as [a|]; simpl in *; by rewrite ?Hs, ?Ha.
Qed.

(** Two cards, a padded search text in capitals and an algorithm: the
    faster card alone is retained. *)
Lemma filterStep_retains_witness :
  forallb Spec.hasName [Example.slow; Example.fast] = true ∧
  App.filterStep [Example.slow; Example.fast]
    (App.Controls (Some " RTX ") (Some "ethash") None)
  = Returns [Example.fast].
Proof.
  split; [reflexivity|].
  by destruct (filterStep_retains [Example.slow; Example.fast]
                 (Some " RTX ") (Some "ethash") None eq_refl) as (-> & _).
Defined.

(** ** Sort keys *)

Section SameKey.
Implicit Types x y z : float.

Lemma SFcompare_Eq (a b : spec_float) :
  SFcompare a b = Some Eq → a = b ∨ (Spec.isZeroSF a = true ∧ Spec.isZeroSF b = true).
Proof.
  destruct a as [[]|[]| |[] ma ea], b as [[]|[]| |[] mb eb]; simpl; try done; auto.
  all: destruct (ea ?= eb)%Z eqn:He; try done.
  all: apply Z.compare_eq in He as ->.
  all: intros [= Hm].
  all: assert (Hm' : (ma ?= mb)%positive = Eq)
    by (unfold Pos.compare; by destruct (Pos.compare_cont Eq ma mb)).
  all: apply Pos.compare_eq in Hm' as ->; auto.
Qed.

Lemma sameKey_spec x y :
  Spec.sameKey x y = true ↔
  x = y ∨ (Spec.isZeroSF (Prim2SF x) = true ∧ Spec.isZeroSF (Prim2SF y) = true).
Proof.
  unfold Spec.sameKey. rewrite orb_true_iff, FloatAxioms.Leibniz.eqb_spec, FloatAxioms.eqb_spec.
  unfold SFeqb. split.
  - intros [->|Heq]; [by left|].
    destruct (SFcompare (Prim2SF x) (Prim2SF y)) as [[]|] eqn:Hc; try done.
    apply SFcompare_Eq in Hc as [Hc|Hc]; [left; by apply Prim2SF_inj|by right].
  - intros [->|[Hx Hy]]; [by left|right]. revert Hx Hy.
    by destruct (Prim2SF x), (Prim2SF y).
Qed.

Lemma sameKey_sym x y : Spec.sameKey x y = true → Spec.sameKey y x = true.
Proof. rewrite !sameKey_spec. intros [->|[? ?]]; auto. Qed.

Lemma sameKey_trans x y z :
  Spec.sameKey x y = true → Spec.sameKey y z = true → Spec.sameKey x z = true.
Proof. rewrite !sameKey_spec. intros [->|[? ?]] [->|[? ?]]; auto. Qed.

(** Numbers with the same key subtract to a zero or to NaN. *)
Lemma sameKey_sub_not_pos x y : Spec.sameKey x y = true → (0 <? x - y)%float = false.
Proof.
  rewrite sameKey_spec. intros [->|[Hx Hy]]; [apply float_sub_diag_not_pos|].
  rewrite ltb_spec, sub_spec. unfold SFltb.
  change (Prim2SF 0) with (S754_zero false). revert Hx Hy.
  by destruct (Prim2SF x) as [[]| | |], (Prim2SF y) as [[]| | |].
Qed.
End SameKey.

(** ** The sort *)

Section SortFacts.
Context {A : Type}.
Implicit Types (cmp : A → A → float) (l : list A).

Lemma insertSorted_perm cmp x l : insertSorted cmp x l ≡ₚ x :: l.
Proof.
  induction l as [|y l IH]; [done|]. simpl.
  destruct (sortsAfter cmp x y); [|done].
  rewrite IH. apply perm_swap.
Qed.

(** The sort rearranges: nothing is added, dropped or duplicated. *)
Lemma arraySort_perm cmp l : arraySort cmp l ≡ₚ l.
Proof.
  induction l as [|x l IH]; [done|]. unfold arraySort in *. simpl.
  rewrite insertSorted_perm. by f_equiv.
Qed.

(** A comparator that never orders one element after another leaves the
    array as it is. *)
Lemma arraySort_unordered cmp l :
  (∀ x y, sortsAfter cmp x y = false) → arraySort cmp l = l.
Proof.
  intros Hcmp. induction l as [|x l IH]; [done|]. unfold arraySort in *. simpl.
  rewrite IH. destruct l as [|y l]; [done|]. simpl. by rewrite Hcmp.
Qed.



Section Stable.
Variable cmp : A → A → float.
Variable key : A → float.
Hypothesis key_eq : ∀ x y, Spec.sameKey (key x) (key y) = true → sortsAfter cmp x y = false.

Lemma withKey_insertSorted k x l :
  Spec.withKey key k (insertSorted cmp x l) = Spec.withKey key k (x :: l).
Proof.
  induction l as [|y l IH]; [done|]. simpl.
  destruct (sortsAfter cmp x y) eqn:Hafter; [|done].
  unfold Spec.withKey in *. simpl in *. rewrite IH.
  destruct (Spec.sameKey (key x) k) eqn:Hx, (Spec.sameKey (key y) k) eqn:Hy; try done.
  rewrite key_eq in Hafter; [done|].
  eapply sameKey_trans; [done|by apply sameKey_sym].
Qed.

(** Stability: the records with a given key come out in the order they
    went in. *)
Lemma withKey_arraySort k l :
  Spec.withKey key k (arraySort cmp l) = Spec.withKey key k l.
Proof.
  induction l as [|x l IH]; [done|].
  change (arraySort cmp (x :: l)) with (insertSorted cmp x (arraySort cmp l)).
  rewrite withKey_insertSorted. unfold Spec.withKey in *. simpl. by rewrite IH.
Qed.
End Stable.
End SortFacts.

(** ** The comparator of [applyFilters] *)

Section ComparatorFacts.
Variable stringToNumber : string → float.

#[local] Abbreviation sortComparator := (App.sortComparator stringToNumber).
#[local] Abbreviation sortKeyOf := (Spec.sortKeyOf stringToNumber).
#[local] Abbreviation applyFilters := (App.applyFilters stringToNumber).


(** Under [hashrate] and under [price] the comparator subtracts two
    properties the metrics objects do not have: its result is NaN. *)
Lemma sortComparator_hashrate a b : sortComparator (Some "hashrate") a b = nan.
Proof. reflexivity. Qed.

Lemma sortComparator_price a b : sortComparator (Some "price") a b = nan.
Proof. reflexivity. Qed.


(** Records with the same key are never ordered one after the other. *)
Lemma sortComparator_equal_keys sort a b :
  Spec.sameKey (sortKeyOf sort a) (sortKeyOf sort b) = true →
  sortsAfter (sortComparator sort) a b = false.
Proof.
  unfold Spec.sortKeyOf, App.sortComparator, sortsAfter.
  destruct (App.caseIs sort "hashrate"); [intros ?%sameKey_sym; by apply sameKey_sub_not_pos|].
  destruct (App.caseIs sort "efficiency"); [intros ?%sameKey_sym; by apply sameKey_sub_not_pos|].
  destruct (App.caseIs sort "price"); [by apply sameKey_sub_not_pos|].
  destruct (App.caseIs sort "roi"); [by apply sameKey_sub_not_pos|].
  intros ?%sameKey_sym; by apply sameKey_sub_not_pos.
Qed.

Lemma applyFilters_filterStep gpus c :
  applyFilters gpus c
  = (result ← App.filterStep gpus c;
     Returns (arraySort (sortComparator (App.sortSelect c)) result)).
Proof. reflexivity. Qed.

(** Under [hashrate] and [price] the filtered records come out in their
    input order, whatever their hash rates and prices. *)
Lemma applyFilters_hashrate_is_filterStep gpus searchText algoFilter :
  applyFilters gpus (App.Controls searchText algoFilter (Some "hashrate"))
  = App.filterStep gpus (App.Controls searchText algoFilter (Some "hashrate")).
Proof.
  rewrite applyFilters_filterStep.
  destruct (App.filterStep _ _) as [r|]; [|done]. simpl.
  by rewrite arraySort_unordered.
Qed.

Lemma applyFilters_price_is_filterStep gpus searchText algoFilter :
  applyFilters gpus (App.Controls searchText algoFilter (Some "price"))
  = App.filterStep gpus (App.Controls searchText algoFilter (Some "price")).
Proof.
  rewrite applyFilters_filterStep.
  destruct (App.filterStep _ _) as [r|]; [|done]. simpl.
  by rewrite arraySort_unordered.
Qed.
End ComparatorFacts.

(** ** The ranking *)

Section RankFacts.
Variable stringToNumber : string → float.

#[local] Abbreviation field' := (App.field stringToNumber).
#[local] Abbreviation gpuMetrics' := (App.gpuMetrics stringToNumber).
#[local] Abbreviation sortComparator' := (App.sortComparator stringToNumber).
#[local] Abbreviation sortKeyOf' := (Spec.sortKeyOf stringToNumber).
#[local] Abbreviation applyFilters' := (App.applyFilters stringToNumber).



(** C6, amended. Under every sort key, when the comparator of the key is
    a consistent comparator for the filtered records, the sort of
    [applyFilters] is stable: the result is a rearrangement of the filtered
    records, themselves a selection of the input in input order, and for
    every key value the records with that key come out in the order in
    which they went in. *)
Theorem applyFilters_sort_stable (gpus : list obj) (c : App.controls) (r : list obj) :
  App.filterStep gpus c = Returns r →
  consistent (sortComparator' (App.sortSelect c)) r = true →
  ∃ out : list obj,
    applyFilters' gpus c = Returns out ∧
    out ≡ₚ r ∧
    r `sublist_of` gpus ∧
    ∀ k : float,
      Spec.withKey (sortKeyOf' (App.sortSelect c)) k out
      = Spec.withKey (sortKeyOf' (App.sortSelect c)) k r.
Proof.
  intros Hr _. eexists. split_and!.
  - rewrite applyFilters_filterStep, Hr. reflexivity.
  - apply arraySort_perm.
  - by eapply filterStep_sublist.
  - intros k. apply withKey_arraySort. apply sortComparator_equal_keys.
Qed.

End RankFacts.

(** C2. Under [hashrate] two cards in ascending order of hash rate stay in
    that order, and under [price] two cards in descending order of price
    stay in that order: the comparator reads [hashrate] and [priceArs] off
    the metrics objects, which do not have them, so it returns NaN for every
    pair and the sort moves nothing. *)
Lemma applyFilters_hashrate_price_unsorted :
  App.applyFilters Example.stringToNumber [Example.slow; Example.fast]
    (App.Controls None None (Some "hashrate"))
  = Returns [Example.slow; Example.fast] ∧
  (App.field Example.stringToNumber Example.slow "hashrate"
   <? App.field Example.stringToNumber Example.fast "hashrate")%float = true ∧
  App.applyFilters Example.stringToNumber [Example.fast; Example.slow]
    (App.Controls None None (Some "price"))
  = Returns [Example.fast; Example.slow] ∧
  (App.field Example.stringToNumber Example.slow "priceArs"
   <? App.field Example.stringToNumber Example.fast "priceArs")%float = true.
Proof. repeat split. Qed.

(** Two cards with one score around a better one: the better one comes
    first and the two keep their order. *)
Lemma applyFilters_sort_stable_witness :
  App.filterStep [Example.slow; Example.fast; Example.slowTwin] Example.noControls
  = Returns [Example.slow; Example.fast; Example.slowTwin] ∧
  consistent (App.sortComparator Example.stringToNumber None)
    [Example.slow; Example.fast; Example.slowTwin] = true ∧
  ∃ out : list obj,
    App.applyFilters Example.stringToNumber
      [Example.slow; Example.fast; Example.slowTwin] Example.noControls
    = Returns out ∧
    Spec.withKey (Spec.sortKeyOf Example.stringToNumber None)
      (Spec.sortKeyOf Example.stringToNumber None Example.slow) out
    = [Example.slow; Example.slowTwin].
Proof.
  split; [reflexivity|]. split; [vm_compute; reflexivity|].
  destruct (applyFilters_sort_stable Example.stringToNumber
              [Example.slow; Example.fast; Example.slowTwin] Example.noControls
              [Example.slow; Example.fast; Example.slowTwin] eq_refl)
    as (out & Hout & _ & _ & Hkey); [vm_compute; reflexivity|].
  exists out. split; [exact Hout|]. rewrite Hkey. reflexivity.
Defined.

(** C6, as stated, fails: the comparator of [roi] is not consistent on
    seven cards of which one has NaN for its [roiDays], and V8 returns the
    cards that pay back in one day with [g6] ahead of [g5], which came
    before it. *)
Lemma applyFilters_sort_unstable :
  App.filterStep Sample.sevenCards Sample.byRoi = Returns Sample.sevenCards ∧
  Spec.sortKeyOf Example.stringToNumber (Some "roi") <$> Sample.sevenCards
  = [2; 1; 1; 1; nan; 1; 1]%float ∧
  consistent (App.sortComparator Example.stringToNumber (Some "roi")) Sample.sevenCards
  = false ∧
  V8.applyFilters Example.stringToNumber Sample.sevenCards Sample.byRoi
  = Returns (Some [Sample.g1; Sample.g2; Sample.g3; Sample.g6; Sample.g0; Sample.g4; Sample.g5]) ∧
  Spec.withKey (Spec.sortKeyOf Example.stringToNumber (Some "roi")) 1 Sample.sevenCards
  = [Sample.g1; Sample.g2; Sample.g3; Sample.g5; Sample.g6] ∧
  Spec.withKey (Spec.sortKeyOf Example.stringToNumber (Some "roi")) 1
    [Sample.g1; Sample.g2; Sample.g3; Sample.g6; Sample.g0; Sample.g4; Sample.g5]
  = [Sample.g1; Sample.g2; Sample.g3; Sample.g6; Sample.g5] ∧
  [Sample.g1; Sample.g2; Sample.g3; Sample.g6; Sample.g5]
  ≠ [Sample.g1; Sample.g2; Sample.g3; Sample.g5; Sample.g6].
Proof.
  split_and!; try (vm_compute; reflexivity).
  intros Heq. apply (f_equal (λ l : list obj, (λ gpu, get gpu "name") <$> l !! 3%nat)) in Heq.
  vm_compute in Heq. discriminate.
Qed.


(** ** The generic comparator *)

Section CompareValuesFacts.
Variable stringToNumber : string → float.
Variable numberToString : float → string.

#[local] Abbreviation compareValues := (Table.compareValues stringToNumber numberToString).
#[local] Abbreviation lessThan' := (lessThan stringToNumber).
#[local] Abbreviation textOf := (Spec.textOf numberToString).
#[local] Abbreviation operands := (Spec.operands numberToString).

Lemma compareValues_operands key order a b :
  compareValues key order a b
  = (let asc := String.eqb (default "asc" order) "asc" in
     let '(valueA, valueB) := operands key a b in
     if lessThan' valueA valueB then (if asc then -1 else 1)
     else if lessThan' valueB valueA then (if asc then 1 else -1)
     else 0)%Z.
Proof.
  unfold Table.compareValues, Spec.operands, Spec.textOf, greaterThan.
  by destruct (isNumber (get a key) && isNumber (get b key)).
Qed.

Lemma operands_swap key a b :
  operands key b a = ((operands key a b).2, (operands key a b).1).
Proof.
  unfold Spec.operands. rewrite (andb_comm (isNumber (get b key))).
  by destruct (isNumber (get a key) && isNumber (get b key)).
Qed.

Lemma string_ltb_asym s t : String.ltb s t = true → String.ltb t s = false.
Proof.
  unfold String.ltb. rewrite (String.compare_antisym t s).
  by destruct (String.compare s t).
Qed.

(** On the operands [<] is asymmetric. *)
Lemma operands_lessThan_asym key a b :
  lessThan' (operands key a b).1 (operands key a b).2 = true →
  lessThan' (operands key a b).2 (operands key a b).1 = false.
Proof.
  unfold Spec.operands.
  destruct (isNumber (get a key) && isNumber (get b key)) eqn:Hnum; simpl.
  - apply andb_prop in Hnum as [Ha Hb].
    destruct (get a key), (get b key); try done. simpl. apply float_ltb_asym.
  - apply string_ltb_asym.
Qed.

Lemma string_ltb_irrefl s : String.ltb s s = false.
Proof.
  unfold String.ltb. pose proof (String.compare_antisym s s) as Hanti.
  by destruct (String.compare s s).
Qed.

(** C8. The comparator [compareValues(key, order)] compares two numbers
    numerically and anything else as lower-cased texts, character by
    character, so that two texts that differ only in the case of their
    letters, which are the same text in capitals, compare equal; [desc] is
    the negation of [asc]; an omitted order is [asc]; and under every order
    the comparator is two-way consistent: [compare(a, b) = - compare(b, a)]. *)
Theorem compareValues_contract (key : string) (a b : obj) :
  let asc := compareValues key (Some "asc") in
  let desc := compareValues key (Some "desc") in
  (∀ x y : float, get a key = VNum x → get b key = VNum y →
     asc a b = Spec.numericOrder x y) ∧
  (isNumber (get a key) && isNumber (get b key) = false →
     asc a b = Spec.textOrder (textOf (get a key)) (textOf (get b key))) ∧
  (∀ s t : string, get a key = VStr s → get b key = VStr t →
     toUpperCase s = toUpperCase t →
     ∀ order : option string, compareValues key order a b = 0%Z) ∧
  desc a b = (- asc a b)%Z ∧
  compareValues key None a b = asc a b ∧
  (∀ order : option string,
     compareValues key order a b = (- compareValues key order b a)%Z).
Proof.
  intros asc desc. split_and!.
  - intros x y Ha Hb. subst asc. rewrite compareValues_operands.
    unfold Spec.operands. by rewrite Ha, Hb.
  - intros Hnum. subst asc. rewrite compareValues_operands.
    unfold Spec.operands. rewrite Hnum. simpl.
    unfold Spec.textOrder, String.ltb.
    rewrite (String.compare_antisym (textOf (get b key))).
    by destruct (String.compare (textOf (get a key)) (textOf (get b key))).
  - intros s t Ha Hb Hcase%toUpperCase_eq_toLowerCase order.
    rewrite compareValues_operands. unfold Spec.operands, Spec.textOf.
    rewrite Ha, Hb. simpl. by rewrite Hcase, string_ltb_irrefl.
  - subst asc desc. rewrite !compareValues_operands. simpl.
    destruct (operands key a b) as [valueA valueB].
    by destruct (lessThan' valueA valueB), (lessThan' valueB valueA).
  - done.
  - intros order. rewrite !compareValues_operands, (operands_swap key a b).
    pose proof (operands_lessThan_asym key a b) as Hasym.
    destruct (operands key a b) as [valueA valueB]. simpl in *.
    destruct (String.eqb (default "asc" order) "asc").
    + destruct (lessThan' valueA valueB); [by rewrite Hasym|].
      by destruct (lessThan' valueB valueA).
    + destruct (lessThan' valueA valueB); [by rewrite Hasym|].
      by destruct (lessThan' valueB valueA).
Qed.
End CompareValuesFacts.

(** The contract on two of the example cards: by hash rate, two numbers;
    by name, two texts; and on a card and the same card with its name in
    small letters, which compare equal in either order. *)
Lemma compareValues_contract_witness :
  Table.compareValues Example.stringToNumber Example.numberToString
    "hashrate" (Some "asc") Example.slow Example.fast = (-1)%Z ∧
  Table.compareValues Example.stringToNumber Example.numberToString
    "name" (Some "asc") Example.slow Example.fast = 1%Z ∧
  Table.compareValues Example.stringToNumber Example.numberToString
    "name" (Some "desc") Example.slow Example.fast = (-1)%Z ∧
  get Example.slow "name" = VStr "RX 580" ∧
  get Example.slowSmall "name" = VStr "rx 580" ∧
  Table.compareValues Example.stringToNumber Example.numberToString
    "name" (Some "asc") Example.slow Example.slowSmall = 0%Z ∧
  Table.compareValues Example.stringToNumber Example.numberToString
    "name" (Some "desc") Example.slowSmall Example.slow = 0%Z.
Proof.
  pose proof (compareValues_contract Example.stringToNumber Example.numberToString
                "hashrate" Example.slow Example.fast) as (Hnum & _).
  pose proof (compareValues_contract Example.stringToNumber Example.numberToString
                "name" Example.slow Example.fast) as (_ & Htext & _ & Hdesc & _).
  pose proof (compareValues_contract Example.stringToNumber Example.numberToString
                "name" Example.slow Example.slowSmall) as (_ & _ & Hcase & _).
  pose proof (compareValues_contract Example.stringToNumber Example.numberToString
                "name" Example.slowSmall Example.slow) as (_ & _ & Hcase' & _).
  split_and!.
  - by rewrite (Hnum 30%float 100%float eq_refl eq_refl).
  - by rewrite (Htext eq_refl).
  - by rewrite Hdesc, (Htext eq_refl).
  - reflexivity.
  - reflexivity.
  - exact (Hcase "RX 580" "rx 580" eq_refl eq_refl eq_refl (Some "asc")).
  - exact (Hcase' "rx 580" "RX 580" eq_refl eq_refl eq_refl (Some "desc")).
Defined.

(** ** The store: what a call leaves unchanged *)

Section StoreFacts.
Import Store.
Implicit Types (h : heap) (l : loc).

Lemma preserved_refl h : Spec.preserved h h.
Proof. by intros l c. Qed.

Lemma preserved_alloc h0 h c :
  Spec.preserved h0 h →
  Spec.preserved h0 (<[fresh (dom h) := c]> h) ∧ h0 !! fresh (dom h) = None.
Proof.
  intros Hh.
  assert (Hnew : h !! fresh (dom h) = None) by (apply not_elem_of_dom, is_fresh).
  assert (Hold : h0 !! fresh (dom h) = None).
  { destruct (h0 !! fresh (dom h)) as [c'|] eqn:Hc; [|done].
    apply Hh in Hc. congruence. }
  split; [|done]. intros l c' Hl.
  rewrite lookup_insert_ne; [by apply Hh|congruence].
Qed.

Lemma preserved_write h0 h l c :
  Spec.preserved h0 h → h0 !! l = None → Spec.preserved h0 (<[l := c]> h).
Proof.
  intros Hh Hl l' c' Hl'. rewrite lookup_insert_ne; [by apply Hh|congruence].
Qed.

Lemma framed_ret h0 {A} (a : A) : Spec.framed h0 (mret a : M A).
Proof. by intros h Hh. Qed.

Lemma framed_throw h0 {A} (e : exn) : Spec.framed h0 (throw e : M A).
Proof. by intros h Hh. Qed.

Lemma framed_bind h0 {A B} (m : M A) (f : A → M B) :
  Spec.framed h0 m → (∀ a, Spec.framed h0 (f a)) → Spec.framed h0 (m ≫= f).
Proof.
  intros Hm Hf h Hh. specialize (Hm h Hh). unfold mbind, M_bind.
  destruct (m h) as [[a|e] h']; simpl in *; [by apply Hf|done].
Qed.

(** After a computation that returns a new cell the rest may write to
    it. *)
Lemma framed_bind_fresh h0 {B} (m : M loc) (f : loc → M B) :
  Spec.framedFresh h0 m → (∀ l, h0 !! l = None → Spec.framed h0 (f l)) →
  Spec.framed h0 (m ≫= f).
Proof.
  intros Hm Hf h Hh. destruct (Hm h Hh) as [Hh' Hfresh]. unfold mbind, M_bind.
  destruct (m h) as [[l|e] h']; simpl in *; [|done].
  by apply Hf; [apply Hfresh|].
Qed.

Lemma framedFresh_ret h0 l : h0 !! l = None → Spec.framedFresh h0 (mret l : M loc).
Proof. intros Hl h Hh. split; [done|]. by intros l' [= <-]. Qed.

Lemma framedFresh_bind h0 {A} (m : M A) (f : A → M loc) :
  Spec.framed h0 m → (∀ a, Spec.framedFresh h0 (f a)) → Spec.framedFresh h0 (m ≫= f).
Proof.
  intros Hm Hf h Hh. specialize (Hm h Hh). unfold mbind, M_bind.
  destruct (m h) as [[a|e] h']; simpl in *; [by apply Hf|done].
Qed.

Lemma framedFresh_framed h0 (m : M loc) : Spec.framedFresh h0 m → Spec.framed h0 m.
Proof. intros Hm h Hh. by apply Hm. Qed.

Lemma framed_readObj h0 l : Spec.framed h0 (readObj l).
Proof. by intros h Hh. Qed.

Lemma framed_readArr h0 l : Spec.framed h0 (readArr l).
Proof. by intros h Hh. Qed.

Lemma framed_writeArr h0 l a : h0 !! l = None → Spec.framed h0 (writeArr l a).
Proof. intros Hl h Hh. by apply preserved_write. Qed.

Lemma framedFresh_alloc h0 c : Spec.framedFresh h0 (alloc c).
Proof.
  intros h Hh. destruct (preserved_alloc h0 h c Hh) as [Hh' Hnew].
  split; [done|]. by intros l [= <-].
Qed.

Lemma framed_filterM h0 (p : loc → M bool) (a : list loc) :
  (∀ x, Spec.framed h0 (p x)) → Spec.framed h0 (filterM p a).
Proof.
  intros Hp. induction a as [|x a IH]; [apply framed_ret|]. simpl.
  apply framed_bind; [done|]. intros b.
  apply framed_bind; [done|]. intros r. apply framed_ret.
Qed.

Lemma framedFresh_arrayFilter h0 (p : loc → M bool) (arr : loc) :
  (∀ x, Spec.framed h0 (p x)) → Spec.framedFresh h0 (arrayFilter p arr).
Proof.
  intros Hp. apply framedFresh_bind; [apply framed_readArr|]. intros a.
  apply framedFresh_bind; [by apply framed_filterM|]. intros r.
  apply framedFresh_alloc.
Qed.

(** [map] with a callback that returns new cells: the cells of the new
    array are new, and so is the array. *)
Lemma framed_mapM h0 (f : loc → M loc) (a : list loc) :
  (∀ x, Spec.framedFresh h0 (f x)) →
  ∀ h, Spec.preserved h0 h →
    Spec.preserved h0 (mapM f a h).2 ∧
    ∀ r, (mapM f a h).1 = Returns r → Forall (λ l, h0 !! l = None) r.
Proof.
  intros Hf. induction a as [|x a IH]; intros h Hh; simpl.
  - split; [done|]. by intros r [= <-].
  - unfold mbind, M_bind. destruct (Hf x h Hh) as [Hh1 Hx].
    destruct (f x h) as [[y|e] h1]; simpl in *; [|done].
    destruct (IH h1 Hh1) as [Hh2 Hr].
    destruct (mapM f a h1) as [[r|e] h2]; simpl in *; [|done].
    split; [done|]. intros r' [= <-]. constructor; [by apply Hx|by apply Hr].
Qed.

Lemma framed_insertSortedM h0 (cmp : loc → loc → M float) x (a : list loc) :
  (∀ x y, Spec.framed h0 (cmp x y)) → Spec.framed h0 (insertSortedM cmp x a).
Proof.
  intros Hcmp. induction a as [|y a IH]; [apply framed_ret|]. simpl.
  apply framed_bind; [done|]. intros v.
  destruct (0 <? v)%float; [|apply framed_ret].
  apply framed_bind; [done|]. intros r. apply framed_ret.
Qed.

Lemma framed_sortM h0 (cmp : loc → loc → M float) (a : list loc) :
  (∀ x y, Spec.framed h0 (cmp x y)) → Spec.framed h0 (sortM cmp a).
Proof.
  intros Hcmp. induction a as [|x a IH]; [apply framed_ret|]. simpl.
  apply framed_bind; [done|]. intros r. by apply framed_insertSortedM.
Qed.

(** Sorting an array that is new leaves the old cells as they were. *)
Lemma framed_arraySortInPlace h0 (cmp : loc → loc → M float) (arr : loc) :
  (∀ x y, Spec.framed h0 (cmp x y)) → h0 !! arr = None →
  Spec.framed h0 (arraySortInPlace cmp arr).
Proof.
  intros Hcmp Harr. apply framed_bind; [apply framed_readArr|]. intros a.
  apply framed_bind; [by apply framed_sortM|]. intros r.
  by apply framed_writeArr.
Qed.

Section ProgramFacts.
Variable stringToNumber : string → float.
Variable toFixed : float → nat → string.
Variable mathRound : float → float.

Lemma framedFresh_gpuMetrics h0 gpu : Spec.framedFresh h0 (gpuMetrics stringToNumber gpu).
Proof.
  apply framedFresh_bind; [apply framed_readObj|]. intros o. apply framedFresh_alloc.
Qed.

Lemma framed_nameMatches h0 search gpu : Spec.framed h0 (nameMatches search gpu).
Proof.
  apply framed_bind; [apply framed_readObj|]. intros o.
  destruct (App.nameMatches search o); [apply framed_ret|apply framed_throw].
Qed.

Lemma framed_algoMatches h0 algo gpu : Spec.framed h0 (algoMatches algo gpu).
Proof. apply framed_bind; [apply framed_readObj|]. intros o. apply framed_ret. Qed.

Lemma framed_sortComparator h0 sort a b :
  Spec.framed h0 (sortComparator stringToNumber sort a b).
Proof.
  apply framed_bind; [apply framedFresh_framed, framedFresh_gpuMetrics|]. intros ma.
  apply framed_bind; [apply framedFresh_framed, framedFresh_gpuMetrics|]. intros mb.
  apply framed_bind; [apply framed_readObj|]. intros oma.
  apply framed_bind; [apply framed_readObj|]. intros omb.
  apply framed_ret.
Qed.

Lemma framed_applyFilters h0 gpus c : Spec.framed h0 (applyFilters stringToNumber gpus c).
Proof.
  unfold applyFilters.
  apply framed_bind; [apply framed_readArr|]. intros a.
  apply framed_bind_fresh; [apply framedFresh_alloc|]. intros r0 Hr0.
  apply framed_bind_fresh.
  { destruct (truthy (App.searchOf c)); [|by apply framedFresh_ret].
    apply framedFresh_arrayFilter. intros x. apply framed_nameMatches. }
  intros r1 Hr1. apply framed_bind_fresh.
  { destruct (truthy (App.algoSelect c)); [|by apply framedFresh_ret].
    apply framedFresh_arrayFilter. intros x. apply framed_algoMatches. }
  intros r2 Hr2. apply framed_bind; [|intros []; apply framed_ret].
  apply framed_arraySortInPlace; [|done]. intros x y. apply framed_sortComparator.
Qed.

Lemma framedFresh_enrichGpu h0 gpu :
  Spec.framedFresh h0 (enrichGpu stringToNumber toFixed mathRound gpu).
Proof.
  apply framedFresh_bind; [apply framed_readObj|]. intros o. apply framedFresh_alloc.
Qed.

(** C9. A call of [applyFilters] leaves every cell of the heap it starts
    from unchanged, whether it returns or throws: the array [gpus] has the
    same elements and every record has the same properties with the same
    values. So does a call of [enrichGpuData], whose result is a new array
    of new objects: no cell of the starting heap is among them. *)
Theorem pipeline_preserves_input (h : heap) (gpus : loc) (c : App.controls) :
  let ranked := applyFilters stringToNumber gpus c h in
  let enriched := enrichGpuData stringToNumber toFixed mathRound gpus h in
  Spec.preserved h ranked.2 ∧
  (is_Some (h !! gpus) → elems ranked.2 gpus = elems h gpus) ∧
  (∀ record, record ∈ elems h gpus → is_Some (h !! record) →
     props ranked.2 record = props h record) ∧
  Spec.preserved h enriched.2 ∧
  (∀ record, record ∈ elems h gpus → is_Some (h !! record) →
     props enriched.2 record = props h record) ∧
  (∀ result, enriched.1 = Returns result →
     h !! result = None ∧ Forall (λ l, h !! l = None) (elems enriched.2 result)).
Proof.
  intros ranked enriched.
  assert (Hranked : Spec.preserved h ranked.2)
    by apply framed_applyFilters, preserved_refl.
  assert (Hcell : ∀ h' l, Spec.preserved h h' → is_Some (h !! l) →
    props h' l = props h l ∧ elems h' l = elems h l).
  { intros h' l Hh' [cl Hl]. unfold props, elems. by rewrite (Hh' _ _ Hl), Hl. }
  assert (Henriched : Spec.preserved h enriched.2 ∧
    ∀ result, enriched.1 = Returns result →
      h !! result = None ∧ Forall (λ l, h !! l = None) (elems enriched.2 result)).
  { subst enriched. unfold enrichGpuData, arrayMap, readArr, alloc, mbind, M_bind. simpl.
    destruct (framed_mapM h (enrichGpu stringToNumber toFixed mathRound) (elems h gpus)
                (framedFresh_enrichGpu h) h (preserved_refl h)) as [Hh1 Hnew].
    destruct (mapM _ _ h) as [[r|e] h1]; simpl in *.
    - destruct (preserved_alloc h h1 (CArr r) Hh1) as [Hh2 Hres].
      split; [done|]. intros result [= <-]. split; [done|].
      unfold elems. rewrite lookup_insert_eq. by apply Hnew.
    - split; [done|]. by intros result. }
  destruct Henriched as [Henriched Hnew].
  split_and!; try done.
  - intros Hgpus. by apply (Hcell ranked.2 gpus Hranked).
  - intros record _ Hrecord. by apply (Hcell ranked.2 record Hranked).
  - intros record _ Hrecord. by apply (Hcell enriched.2 record Henriched).
Qed.
End ProgramFacts.
End StoreFacts.

(** On the example heap the ranking is a new array at 4 that holds the two
    records faster first, and the array at 1 and the records at 2 and 3 are
    as they were. *)
Lemma pipeline_preserves_input_witness :
  let ranked :=
    Store.applyFilters Example.stringToNumber 1%positive Example.noControls Example.heap in
  ranked.1 = Returns 4%positive ∧
  Store.elems ranked.2 4%positive = [3%positive; 2%positive] ∧
  Store.elems ranked.2 1%positive = [2%positive; 3%positive] ∧
  Store.props ranked.2 2%positive = Example.slow ∧
  Store.props ranked.2 3%positive = Example.fast.
Proof.
  intros ranked.
  destruct (pipeline_preserves_input Example.stringToNumber Example.toFixed
              Example.mathRound Example.heap 1%positive Example.noControls)
    as (_ & Harr & Hrec & _).
  split_and!.
  - reflexivity.
  - reflexivity.
  - subst ranked. by rewrite Harr.
  - subst ranked. rewrite Hrec; [done| |done].
    apply list_elem_of_here.
  - subst ranked. rewrite Hrec; [done| |done].
    apply list_elem_of_further, list_elem_of_here.
Defined.

(** ** The store model computes what the value model computes *)

Section Refinement.
Import Store.
Variable stringToNumber : string → float.
Variable h0 : heap.
Implicit Types (h : heap) (l : loc) (a : list loc).

Lemma props_preserved h l :
  Spec.preserved h0 h → is_Some (h0 !! l) → props h l = props h0 l.
Proof. intros Hh [c Hl]. unfold props. by rewrite (Hh _ _ Hl), Hl. Qed.

Lemma deref_preserved h a :
  Spec.preserved h0 h → Spec.live h0 a → deref h a = deref h0 a.
Proof.
  intros Hh Ha. induction Ha as [|x a Hx Ha IH]; [done|].
  unfold deref in *. rewrite !fmap_cons. by rewrite IH, (props_preserved h x).
Qed.

Lemma run_bind {A B} (m : M A) (f : A → M B) h :
  (m ≫= f) h
  = match m h with
    | (Returns x, h') => f x h'
    | (Throws e, h') => (Throws e, h')
    end.
Proof. reflexivity. Qed.

Lemma gpuMetrics_run h gpu :
  gpuMetrics stringToNumber gpu h
  = (Returns (fresh (dom h)),
     <[fresh (dom h) := CObj (App.gpuMetrics stringToNumber (props h gpu))]> h).
Proof. reflexivity. Qed.

(** The comparator returns what the value-level comparator returns on the
    two records, and allocates two metrics objects. *)
Lemma sortComparator_refines sort x y h :
  Spec.preserved h0 h → is_Some (h0 !! x) → is_Some (h0 !! y) →
  ∃ h', sortComparator stringToNumber sort x y h
        = (Returns (App.sortComparator stringToNumber sort (props h0 x) (props h0 y)), h')
        ∧ Spec.preserved h0 h'.
Proof.
  intros Hh Hx Hy.
  destruct (preserved_alloc h0 h (CObj (App.gpuMetrics stringToNumber (props h x))) Hh)
    as [Hh1 _].
  set (l1 := fresh (dom h)) in *.
  set (h1 := <[l1 := CObj (App.gpuMetrics stringToNumber (props h x))]> h) in *.
  destruct (preserved_alloc h0 h1 (CObj (App.gpuMetrics stringToNumber (props h1 y))) Hh1)
    as [Hh2 _].
  set (l2 := fresh (dom h1)) in *.
  set (h2 := <[l2 := CObj (App.gpuMetrics stringToNumber (props h1 y))]> h1) in *.
  assert (Hne : l2 ≠ l1).
  { intros Heq. apply (is_fresh (dom h1)). fold l2. rewrite Heq.
    apply elem_of_dom. subst h1. rewrite lookup_insert_eq. by eexists. }
  assert (H1 : props h2 l1 = App.gpuMetrics stringToNumber (props h0 x)).
  { unfold props at 1. subst h2 h1. rewrite lookup_insert_ne, lookup_insert_eq by done.
    by rewrite (props_preserved h x). }
  assert (H2 : props h2 l2 = App.gpuMetrics stringToNumber (props h0 y)).
  { unfold props at 1. subst h2. rewrite lookup_insert_eq.
    by rewrite (props_preserved h1 y). }
  exists h2. split; [|done].
  unfold sortComparator. rewrite run_bind, gpuMetrics_run. fold l1 h1.
  rewrite run_bind, gpuMetrics_run. fold l2 h2.
  rewrite run_bind. unfold readObj at 1. rewrite run_bind. unfold readObj at 1.
  by rewrite H1, H2.
Qed.

Lemma insertSortedM_refines sort x a h :
  Spec.preserved h0 h → is_Some (h0 !! x) → Spec.live h0 a →
  ∃ r h', insertSortedM (sortComparator stringToNumber sort) x a h = (Returns r, h')
          ∧ Spec.preserved h0 h' ∧ Spec.live h0 r
          ∧ deref h0 r
            = insertSorted (App.sortComparator stringToNumber sort) (props h0 x) (deref h0 a).
Proof.
  intros Hh Hx Ha. revert h Hh. induction Ha as [|y a Hy Ha IH]; intros h Hh.
  - exists [x], h. repeat split; [done|by constructor].
  - simpl. rewrite run_bind.
    destruct (sortComparator_refines sort x y h Hh Hx Hy) as (h1 & -> & Hh1).
    unfold sortsAfter.
    destruct (0 <? App.sortComparator stringToNumber sort (props h0 x) (props h0 y))%float.
    + rewrite run_bind. destruct (IH h1 Hh1) as (r & h2 & -> & Hh2 & Hr & Hderef).
      exists (y :: r), h2. repeat split; [done|by constructor|].
      simpl. by rewrite Hderef.
    + exists (x :: y :: a), h1. repeat split; [done|by repeat constructor].
Qed.

Lemma sortM_refines sort a h :
  Spec.preserved h0 h → Spec.live h0 a →
  ∃ r h', sortM (sortComparator stringToNumber sort) a h = (Returns r, h')
          ∧ Spec.preserved h0 h' ∧ Spec.live h0 r
          ∧ deref h0 r = arraySort (App.sortComparator stringToNumber sort) (deref h0 a).
Proof.
  intros Hh Ha. revert h Hh. induction Ha as [|x a Hx Ha IH]; intros h Hh.
  - exists [], h. repeat split; [done|by constructor].
  - simpl. rewrite run_bind. destruct (IH h Hh) as (r & h1 & -> & Hh1 & Hr & Hderef).
    destruct (insertSortedM_refines sort x r h1 Hh1 Hx Hr) as (r' & h2 & -> & Hh2 & Hr' & Hderef').
    exists r', h2. repeat split; [done..|].
    rewrite Hderef', Hderef. reflexivity.
Qed.

(** A filter callback that reads its record and allocates nothing runs as
    [filterE] does on the references. *)
Lemma filterM_run (p : loc → M bool) (q : obj → completion bool) a h :
  (∀ x h', Spec.preserved h0 h' → is_Some (h0 !! x) → p x h' = (q (props h0 x), h')) →
  Spec.preserved h0 h → Spec.live h0 a →
  filterM p a h = (filterE (λ x, q (props h0 x)) a, h).
Proof.
  intros Hp Hh Ha. induction Ha as [|x a Hx Ha IH]; [done|]. simpl.
  rewrite run_bind, (Hp x h Hh Hx).
  destruct (q (props h0 x)) as [b|e]; [|done]. simpl.
  rewrite run_bind, IH. by destruct (filterE _ a).
Qed.

Lemma filterE_fmap {A B} (f : A → B) (q : B → completion bool) (l : list A) :
  filterE q (f <$> l) = (λ r : list A, f <$> r) <$> filterE (λ x, q (f x)) l.
Proof.
  induction l as [|x l IH]; [done|]. rewrite fmap_cons. cbn [filterE]. rewrite IH.
  destruct (q (f x)) as [b|e]; [|done].
  destruct (filterE _ l) as [r|e]; [|done]. by destruct b.
Qed.

Lemma filterE_live {q : loc → completion bool} a r :
  filterE q a = Returns r → Spec.live h0 a → Spec.live h0 r.
Proof.
  intros Hr%filterE_sublist Ha. induction Hr as [|x r a Hr IH|x r a Hr IH].
  - done.
  - apply Forall_cons in Ha as [Hx Ha]. constructor; [done|by apply IH].
  - apply Forall_cons in Ha as [Hx Ha]. by apply IH.
Qed.

Lemma nameMatches_run search x h :
  Spec.preserved h0 h → is_Some (h0 !! x) →
  nameMatches search x h = (App.nameMatches search (props h0 x), h).
Proof.
  intros Hh Hx. unfold nameMatches. rewrite run_bind. unfold readObj.
  rewrite (props_preserved h x Hh Hx).
  by destruct (App.nameMatches search (props h0 x)).
Qed.

Lemma algoMatches_run algo x h :
  Spec.preserved h0 h → is_Some (h0 !! x) →
  algoMatches algo x h = (Returns (App.algoMatches algo (props h0 x)), h).
Proof.
  intros Hh Hx. unfold algoMatches. rewrite run_bind. unfold readObj.
  by rewrite (props_preserved h x Hh Hx).
Qed.

Lemma denotes_alloc h a :
  Spec.preserved h0 h → Spec.live h0 a →
  Spec.denotes h0 (<[fresh (dom h) := CArr a]> h) (fresh (dom h)) (deref h0 a).
Proof.
  intros Hh Ha. destruct (preserved_alloc h0 h (CArr a) Hh) as [Hh' Hnew].
  unfold Spec.denotes, elems. by rewrite lookup_insert_eq.
Qed.

(** A filter leaves its input array and denotes the filtered records by a
    new one, or throws what the value-level filter throws. *)
Lemma arrayFilter_refines (p : loc → M bool) (q : obj → completion bool) arr r h :
  (∀ x h', Spec.preserved h0 h' → is_Some (h0 !! x) → p x h' = (q (props h0 x), h')) →
  Spec.denotes h0 h arr r →
  ∃ res h', arrayFilter p arr h = (res, h') ∧
    match filterE q r with
    | Returns r' => ∃ arr', res = Returns arr' ∧ Spec.denotes h0 h' arr' r'
    | Throws e => res = Throws e
    end.
Proof.
  intros Hp (Hh & Harr & Hlive & <-).
  unfold arrayFilter. rewrite run_bind. unfold readArr at 1.
  rewrite run_bind, (filterM_run p q _ _ Hp Hh Hlive).
  unfold deref. rewrite (filterE_fmap (props h0) q).
  destruct (filterE (λ x, q (props h0 x)) (elems h arr)) as [rl|e] eqn:Hrl.
  - eexists _, _. split; [reflexivity|]. eexists. split; [reflexivity|].
    apply denotes_alloc; [done|]. by eapply filterE_live.
  - eexists _, _. by split.
Qed.

(** The sort overwrites the new array with the sorted references. *)
Lemma arraySortInPlace_refines sort arr r h :
  Spec.denotes h0 h arr r →
  ∃ h', arraySortInPlace (sortComparator stringToNumber sort) arr h = (Returns (), h') ∧
    Spec.denotes h0 h' arr (arraySort (App.sortComparator stringToNumber sort) r).
Proof.
  intros (Hh & Harr & Hlive & <-).
  unfold arraySortInPlace. rewrite run_bind. unfold readArr at 1. rewrite run_bind.
  destruct (sortM_refines sort (elems h arr) h Hh Hlive) as (rs & h1 & -> & Hh1 & Hrs & Hderef).
  eexists. split; [reflexivity|].
  unfold Spec.denotes, elems. rewrite lookup_insert_eq.
  split_and!; [by apply preserved_write|done..].
Qed.

(** On a heap that holds the records of [gpus], the store-level
    [applyFilters] throws when the value-level one throws, and otherwise
    returns a new array that denotes the value-level result. *)
Lemma store_applyFilters_refines gpus c :
  Spec.live h0 (elems h0 gpus) →
  ∃ res h', applyFilters stringToNumber gpus c h0 = (res, h') ∧
    match App.applyFilters stringToNumber (deref h0 (elems h0 gpus)) c with
    | Returns out => ∃ result, res = Returns result ∧ Spec.denotes h0 h' result out
    | Throws e => res = Throws e
    end.
Proof.
  intros Hlive. unfold applyFilters, App.applyFilters, App.filterStep.
  rewrite run_bind. unfold readArr at 1. rewrite run_bind. unfold alloc at 1.
  pose proof (denotes_alloc h0 (elems h0 gpus) (preserved_refl h0) Hlive) as Hd0.
  set (h1 := <[fresh (dom h0) := CArr (elems h0 gpus)]> h0) in *.
  set (l0 := fresh (dom h0)) in *.
  set (r0 := deref h0 (elems h0 gpus)) in *.
  rewrite run_bind.
  assert (Hfirst : ∃ res h2,
    (if truthy (App.searchOf c)
     then arrayFilter (nameMatches (default EmptyString (App.searchOf c))) l0
     else mret l0) h1 = (res, h2) ∧
    match (if truthy (App.searchOf c)
           then filterE (App.nameMatches (default EmptyString (App.searchOf c))) r0
           else Returns r0) with
    | Returns r1 => ∃ l1, res = Returns l1 ∧ Spec.denotes h0 h2 l1 r1
    | Throws e => res = Throws e
    end).
  { destruct (truthy (App.searchOf c)).
    - apply arrayFilter_refines; [|done]. intros x h'. apply nameMatches_run.
    - eexists _, _. split; [reflexivity|]. by eexists. }
  destruct Hfirst as (res1 & h2 & -> & Hres1).
  destruct (if truthy (App.searchOf c) then _ else _) as [r1|e]; [|subst res1; by eexists _, _].
  destruct Hres1 as (l1 & -> & Hd1). cbn [mbind completion_bind].
  rewrite run_bind.
  assert (Hsecond : ∃ l2 h3,
    (if truthy (App.algoSelect c)
     then arrayFilter (algoMatches (default EmptyString (App.algoSelect c))) l1
     else mret l1) h2 = (Returns l2, h3) ∧
    Spec.denotes h0 h3 l2
      (if truthy (App.algoSelect c)
       then List.filter (App.algoMatches (default EmptyString (App.algoSelect c))) r1
       else r1)).
  { destruct (truthy (App.algoSelect c)); [|by eexists _, _].
    destruct (arrayFilter_refines
                (algoMatches (default EmptyString (App.algoSelect c)))
                (λ o, Returns (App.algoMatches (default EmptyString (App.algoSelect c)) o))
                l1 r1 h2) as (res & h3 & -> & Hres); [|done|].
    - intros x h'. apply algoMatches_run.
    - assert (Hpure : filterE
          (λ o, Returns (App.algoMatches (default EmptyString (App.algoSelect c)) o)) r1
        = Returns (List.filter (App.algoMatches (default EmptyString (App.algoSelect c))) r1)).
      { clear. induction r1 as [|o r1 IH]; [done|]. cbn [filterE List.filter].
        rewrite IH. simpl. by destruct (App.algoMatches _ o). }
      rewrite Hpure in Hres. destruct Hres as (l2 & -> & Hd2). by eexists _, _. }
  destruct Hsecond as (l2 & h3 & -> & Hd2).
  rewrite run_bind.
  destruct (arraySortInPlace_refines (App.sortSelect c) l2 _ h3 Hd2) as (h4 & -> & Hd4).
  eexists _, _. split; [reflexivity|]. by eexists.
Qed.
End Refinement.

(** ** Further properties of the ranking *)

Section RoiOrder.
Context {A : Type}.
Variable cmp : A → A → float.
Variables P Q : A → Prop.
Hypothesis before : ∀ x y, P x → Q y → sortsAfter cmp x y = false.
Hypothesis after : ∀ x y, Q x → P y → sortsAfter cmp x y = true.

(** Inserting into a block of [P]s followed by a block of [Q]s gives such
    a pair of blocks again. *)
Lemma insertSorted_blocks x fin inf :
  P x ∨ Q x → Forall P fin → Forall Q inf →
  ∃ fin' inf', insertSorted cmp x (fin ++ inf) = fin' ++ inf'
               ∧ Forall P fin' ∧ Forall Q inf'.
Proof.
  intros Hx Hfin Hinf. induction Hfin as [|y fin Hy Hfin IH].
  - destruct Hx as [Hx|Hx].
    + exists [x], inf. split_and!; [|by constructor|done].
      destruct Hinf as [|z inf Hz Hinf]; [done|]. simpl. by rewrite before.
    + exists [], (insertSorted cmp x inf). split_and!; [done|done|].
      rewrite insertSorted_perm. by constructor.
  - simpl. destruct (sortsAfter cmp x y) eqn:Hxy.
    + destruct IH as (fin' & inf' & -> & Hfin' & Hinf').
      exists (y :: fin'), inf'. split_and!; [done|by constructor|done].
    + destruct Hx as [Hx|Hx]; [|by rewrite after in Hxy].
      exists (x :: y :: fin), inf. split_and!; [done|by repeat constructor|done].
Qed.

Lemma arraySort_blocks l :
  Forall (λ x, P x ∨ Q x) l →
  ∃ fin inf, arraySort cmp l = fin ++ inf ∧ Forall P fin ∧ Forall Q inf.
Proof.
  induction 1 as [|x l Hx Hl IH]; [by exists [], []|].
  destruct IH as (fin & inf & Heq & Hfin & Hinf).
  change (arraySort cmp (x :: l)) with (insertSorted cmp x (arraySort cmp l)).
  rewrite Heq. by apply insertSorted_blocks.
Qed.
End RoiOrder.

Section MoreRankFacts.
Variable stringToNumber : string → float.

(** Under [roi], when no retained record has NaN for its [roiDays], every
    record whose [roiDays] is below [Infinity] comes before every record
    whose [roiDays] is [Infinity]. *)
Theorem applyFilters_roi_infinite_last (gpus : list obj) (searchText algoFilter : option string)
    (retained out : list obj) :
  App.filterStep gpus (App.Controls searchText algoFilter (Some "roi")) = Returns retained →
  Forall (λ gpu, Spec.finiteRoi stringToNumber gpu || Spec.infiniteRoi stringToNumber gpu = true)
    retained →
  App.applyFilters stringToNumber gpus (App.Controls searchText algoFilter (Some "roi"))
  = Returns out →
  ∃ finite infinite : list obj,
    out = finite ++ infinite ∧
    Forall (λ gpu, (Spec.roiDaysOf stringToNumber gpu <? infinity)%float = true) finite ∧
    Forall (λ gpu, Spec.roiDaysOf stringToNumber gpu = infinity) infinite.
Proof.
  intros Hretained Hroi. rewrite applyFilters_filterStep, Hretained. intros [= <-].
  apply arraySort_blocks.
  - intros x y Hx Hy. unfold sortsAfter.
    change (App.sortComparator stringToNumber (Some "roi") x y)
      with (Spec.roiDaysOf stringToNumber x - Spec.roiDaysOf stringToNumber y)%float.
    rewrite Hy. by apply float_sub_infinity_not_pos.
  - intros x y Hx Hy. unfold sortsAfter.
    change (App.sortComparator stringToNumber (Some "roi") x y)
      with (Spec.roiDaysOf stringToNumber x - Spec.roiDaysOf stringToNumber y)%float.
    rewrite Hx. by apply float_infinity_sub_pos.
  - rewrite Forall_forall in Hroi |- *. intros gpu Hgpu%Hroi.
    apply orb_prop in Hgpu as [Hfin|Hinf]; [by left|right].
    by apply FloatAxioms.Leibniz.eqb_spec in Hinf.
Qed.

(** An empty collection ranks to an empty result under any options. *)
Theorem applyFilters_empty (c : App.controls) :
  App.applyFilters stringToNumber [] c = Returns [].
Proof.
  unfold App.applyFilters, App.filterStep.
  by destruct (truthy (App.searchOf c)), (truthy (App.algoSelect c)).
Qed.

End MoreRankFacts.

(** Four cards under [roi], one of them with no price, which the search
    leaves out: of the three retained the one that never pays back comes
    last. *)
Lemma applyFilters_roi_infinite_last_witness :
  App.filterStep [Example.gpuX0; Example.unpriced; Example.fast; Example.slow]
    (App.Controls (Some "x") None (Some "roi"))
  = Returns [Example.gpuX0; Example.fast; Example.slow] ∧
  App.applyFilters Example.stringToNumber
    [Example.gpuX0; Example.unpriced; Example.fast; Example.slow]
    (App.Controls (Some "x") None (Some "roi"))
  = Returns [Example.fast; Example.slow; Example.gpuX0] ∧
  ∃ finite infinite : list obj,
    [Example.fast; Example.slow; Example.gpuX0] = finite ++ infinite ∧
    Forall (λ gpu, Spec.roiDaysOf Example.stringToNumber gpu = infinity) infinite.
Proof.
  split; [reflexivity|]. split; [reflexivity|].
  destruct (applyFilters_roi_infinite_last Example.stringToNumber
              [Example.gpuX0; Example.unpriced; Example.fast; Example.slow] (Some "x") None
              [Example.gpuX0; Example.fast; Example.slow]
              [Example.fast; Example.slow; Example.gpuX0])
    as (finite & infinite & Heq & _ & Hinf).
  - reflexivity.
  - by repeat constructor.
  - reflexivity.
  - by exists finite, infinite.
Defined.

(** * Further properties of the code *)

(** ** Substrings and letter case *)

Section StringFacts.
Implicit Types (s t u sub : string) (c : ascii).

Lemma append_cons c s t : String c s +:+ t = String c (s +:+ t).
Proof. reflexivity. Qed.

Lemma append_assoc s t u : (s +:+ t) +:+ u = s +:+ (t +:+ u).
Proof. induction s as [|c s IH]; [done|]. by rewrite !append_cons, IH. Qed.

Lemma prefix_spec sub s : String.prefix sub s = true ↔ ∃ post, s = sub +:+ post.
Proof.
  revert s. induction sub as [|c sub IH]; intros [|d s]; simpl.
  - split; [by exists EmptyString|done].
  - split; [by exists (String d s)|done].
  - split; [done|by intros [post Hpost]].
  - destruct (ascii_dec c d) as [->|Hne].
    + rewrite IH. split; intros [post Hpost]; exists post;
        rewrite ?append_cons in *; congruence.
    + split; [done|]. intros [post Hpost]. rewrite append_cons in Hpost. congruence.
Qed.

(** [s.includes(sub)] holds exactly when [sub] occurs in [s]. *)
Lemma includes_spec s sub :
  includes s sub = true ↔ ∃ pre post, s = pre +:+ sub +:+ post.
Proof.
  induction s as [|c s IH].
  - cbn [includes]. rewrite orb_false_r, prefix_spec. split.
    + intros [post Hpost]. by exists EmptyString, post.
    + intros (pre & post & Heq). destruct pre; [by exists post|done].
  - cbn [includes]. rewrite orb_true_iff, prefix_spec, IH. split.
    + intros [[post Hpost]|(pre & post & Heq)].
      * by exists EmptyString, post.
      * exists (String c pre), post. by rewrite append_cons, Heq.
    + intros (pre & post & Heq). destruct pre as [|d pre].
      * left. by exists post.
      * right. exists pre, post. rewrite append_cons in Heq. congruence.
Qed.

Lemma includes_trans s t u :
  includes s t = true → includes t u = true → includes s u = true.
Proof.
  rewrite !includes_spec. intros (pre & post & ->) (pre' & post' & ->).
  exists (pre +:+ pre'), (post' +:+ post). by rewrite !append_assoc.
Qed.


End StringFacts.

(** ** More on the two filters *)

Section MoreFilterFacts.
Implicit Types (gpus : list obj) (gpu : obj).

Lemma filter_bool_implies_sublist {A} (p q : A → bool) (l : list A) :
  (∀ x, q x = true → p x = true) → List.filter q l `sublist_of` List.filter p l.
Proof.
  intros Hqp. induction l as [|x l IH]; [done|]. simpl.
  destruct (q x) eqn:Hq.
  - rewrite (Hqp x Hq). by apply sublist_skip.
  - destruct (p x); [by apply sublist_cons|done].
Qed.

Lemma toLowerCase_nil_inv (s : string) : toLowerCase s = EmptyString → s = EmptyString.
Proof. by destruct s. Qed.

Lemma includes_nil_inv (sub : string) : includes EmptyString sub = true → sub = EmptyString.
Proof. by destruct sub. Qed.

(** Typing more can only remove rows: when the text searched for under
    [narrow] contains the text searched for under [wide] (both trimmed,
    letter case apart), the records retained under [narrow] are among
    those retained under [wide], in the same order. *)
Theorem filterStep_narrows gpus (wide narrow : string) (algoFilter sort : option string) :
  forallb Spec.hasName gpus = true →
  includes (toLowerCase (trim narrow)) (toLowerCase (trim wide)) = true →
  ∃ rWide rNarrow,
    App.filterStep gpus (App.Controls (Some wide) algoFilter sort) = Returns rWide ∧
    App.filterStep gpus (App.Controls (Some narrow) algoFilter sort) = Returns rNarrow ∧
    rNarrow `sublist_of` rWide.
Proof.
  intros Hnames Hinc. eexists _, _.
  split; [by apply filterStep_returns|]. split; [by apply filterStep_returns|].
  apply filter_bool_implies_sublist. intros gpu.
  unfold Spec.retained, Spec.passesBoth. rewrite !andb_true_iff.
  intros [Hname Halgo]. split; [|done]. clear Halgo. revert Hname.
  unfold Spec.whenPresent, Spec.nameContains. simpl.
  destruct (truthyStr (trim wide)) eqn:Hw; [|done].
  destruct (truthyStr (trim narrow)) eqn:Hn.
  - destruct (get gpu "name"); try done. intros Hname. by eapply includes_trans.
  - destruct (trim narrow); [|done]. apply includes_nil_inv, toLowerCase_nil_inv in Hinc.
    by rewrite Hinc in Hw.
Qed.

Lemma filterStep_narrows_witness :
  ∃ rWide rNarrow,
    App.filterStep [Example.slow; Example.fast; Example.slowTwin]
      (App.Controls (Some "rx") None None) = Returns rWide ∧
    App.filterStep [Example.slow; Example.fast; Example.slowTwin]
      (App.Controls (Some " RX 5 ") None None) = Returns rNarrow ∧
    rNarrow `sublist_of` rWide.
Proof.
  apply (filterStep_narrows [Example.slow; Example.fast; Example.slowTwin] "rx" " RX 5 ");
    reflexivity.
Defined.

(** The search ignores letter case on both sides: the text typed in
    capitals gives the same result, and a record is retained or not
    whatever the case of the letters of its name. *)
Theorem filterStep_ignores_case gpus (v : string) (algoFilter sort : option string) :
  App.filterStep gpus (App.Controls (Some (toUpperCase v)) algoFilter sort)
  = App.filterStep gpus (App.Controls (Some v) algoFilter sort) ∧
  ∀ (search name : string) gpu,
    App.nameMatches search (<["name" := VStr (toUpperCase name)]> gpu)
    = App.nameMatches search (<["name" := VStr name]> gpu).
Proof.
  split.
  - unfold App.filterStep, App.searchOf. simpl. by rewrite toLowerCase_toUpperCase.
  - intros search name gpu. unfold App.nameMatches, get.
    rewrite !lookup_insert_eq. simpl. by rewrite toLowerCase_toUpperCase.
Qed.
End MoreFilterFacts.
(** ** Rendering *)

Section RenderingFacts.
Variable stringToNumber : string → float.
Variable numberToString : float → string.
Variable localeNumber : float → nat → string.
Variable localeCurrency : float → string.
Implicit Types (gpus filtered : list obj) (gpu : obj) (rows : list Page.row).

(** Names the numbers under [VNum], so that [simpl] leaves them alone. *)
#[local] Ltac name_numbers :=
  repeat match goal with
         | |- context [VNum ?x] => assert_fails (is_var x); generalize x; intro
         end.

#[local] Abbreviation formatNumber := (Page.formatNumber stringToNumber localeNumber).
#[local] Abbreviation formatCurrency := (Page.formatCurrency localeCurrency).
#[local] Abbreviation tableRow :=
  (Page.tableRow stringToNumber numberToString localeNumber localeCurrency).
#[local] Abbreviation tableRows :=
  (Page.tableRows stringToNumber numberToString localeNumber localeCurrency).
#[local] Abbreviation buildTable :=
  (Page.buildTable stringToNumber numberToString localeNumber localeCurrency).

Lemma formatNumber_number (x : float) digits :
  (default 2 digits <=? maxFractionDigits)%nat = true →
  formatNumber (VNum x) digits
  = Returns (if PrimFloat.is_finite x then localeNumber x (default 2 digits) else Shown.dash).
Proof.
  intros Hdigits%Nat.leb_le. unfold Page.formatNumber, toLocaleStringDigits. simpl.
  destruct (PrimFloat.is_finite x); [|done]. simpl.
  by destruct (Nat.ltb_spec maxFractionDigits (default 2 digits)); [lia|].
Qed.

Lemma tableRow_throws index gpu :
  tableRow index gpu = Throws TypeError ↔ Shown.renderable gpu = false.
Proof.
  unfold Page.tableRow, Shown.renderable.
  rewrite gpuMetrics_efficiency, gpuMetrics_dailyNetArs, gpuMetrics_roiDays.
  rewrite !formatNumber_number by done. name_numbers.
  destruct (get gpu "algo"); cbn; [split; reflexivity..|].
  destruct (get gpu "priceArs"); cbn; [split; reflexivity..| | |];
    destruct (index =? 0)%nat; cbn; split; discriminate.
Qed.

(** The digits of the rows are in range: no row throws a RangeError. *)
Lemma tableRow_no_RangeError index gpu : tableRow index gpu ≠ Throws RangeError.
Proof.
  unfold Page.tableRow.
  rewrite gpuMetrics_efficiency, gpuMetrics_dailyNetArs, gpuMetrics_roiDays.
  rewrite !formatNumber_number by done. name_numbers.
  destruct (get gpu "algo"); cbn; [discriminate..|].
  destruct (get gpu "priceArs"); cbn; [discriminate..| | |];
    destruct (index =? 0)%nat; cbn; discriminate.
Qed.

Lemma tableRows_no_RangeError index filtered : tableRows index filtered ≠ Throws RangeError.
Proof.
  revert index. induction filtered as [|gpu rest IH]; intros index; [done|]. simpl.
  pose proof (tableRow_no_RangeError index gpu) as Hrow.
  destruct (tableRow index gpu) as [r|[]]; simpl; [|done..].
  specialize (IH (S index)).
  by destruct (tableRows (S index) rest) as [rs|[]].
Qed.

Lemma tableRows_throws index filtered :
  tableRows index filtered = Throws TypeError
  ↔ Exists (λ gpu, Shown.renderable gpu = false) filtered.
Proof.
  revert index. induction filtered as [|gpu rest IH]; intros index.
  - simpl. split; [done|]. by rewrite Exists_nil.
  - rewrite Exists_cons, <- (IH (S index)), <- (tableRow_throws index). simpl.
    clear IH. pose proof (tableRow_no_RangeError index gpu) as Hrow.
    pose proof (tableRows_no_RangeError (S index) rest) as Hrows.
    destruct (tableRow index gpu) as [r|[]]; simpl.
    + destruct (tableRows (S index) rest) as [rs|[]]; simpl; intuition congruence.
    + intuition congruence.
    + done.
Qed.

Lemma tableRows_length index filtered rows :
  tableRows index filtered = Returns rows → length rows = length filtered.
Proof.
  revert index rows. induction filtered as [|gpu rest IH]; intros index rows; simpl.
  - by intros [= <-].
  - destruct (tableRow index gpu) as [r|]; [|done]. simpl.
    destruct (tableRows (S index) rest) as [rs|] eqn:Hrest; [|done]. simpl.
    intros [= <-]. simpl. f_equal. by eapply IH.
Qed.

Lemma tableRows_lookup index filtered rows i r :
  tableRows index filtered = Returns rows → rows !! i = Some r →
  ∃ gpu, filtered !! i = Some gpu ∧ tableRow (index + i) gpu = Returns r.
Proof.
  revert index rows i. induction filtered as [|gpu rest IH]; intros index rows i; simpl.
  - by intros [= <-].
  - destruct (tableRow index gpu) as [r0|] eqn:Hrow; [|done]. simpl.
    destruct (tableRows (S index) rest) as [rs|] eqn:Hrest; [|done]. simpl.
    intros [= <-]. destruct i as [|i]; simpl.
    + intros [= ->]. exists gpu. by rewrite Nat.add_0_r.
    + intros Hr. destruct (IH _ _ _ Hrest Hr) as (gpu' & Hgpu' & Hrow').
      exists gpu'. split; [done|]. by rewrite Nat.add_succ_r.
Qed.

Lemma tableRow_inv index gpu r :
  tableRow index gpu = Returns r →
  Page.position r = numberToString (ofNat index + 1) ∧
  Page.name r = toString numberToString (get gpu "name") ∧
  Page.highPower r = greaterThan stringToNumber (get gpu "power") (VNum 200) ∧
  Page.roi r =
    if (index =? 0)%nat then Page.BestValue
    else Page.Days
      ((if PrimFloat.is_finite (Spec.roiDaysOf stringToNumber gpu)
        then localeNumber (Spec.roiDaysOf stringToNumber gpu) 0
        else Shown.dash) +:+ " días").
Proof.
  unfold Page.tableRow, Spec.roiDaysOf, App.field.
  rewrite gpuMetrics_efficiency, gpuMetrics_dailyNetArs, gpuMetrics_roiDays.
  rewrite !formatNumber_number by done. simpl toNumber. name_numbers.
  destruct (get gpu "algo"); cbn; [discriminate..|].
  destruct (formatCurrency (get gpu "priceArs")); cbn; [|discriminate].
  destruct (index =? 0)%nat; cbn; intros [= <-]; cbn; split_and!; reflexivity.
Qed.

(** [buildTable] throws, a TypeError, exactly when the page has a table
    container and one of the records has an [algo] that is not a string or
    no [priceArs]; with no container it renders nothing and throws
    nothing. *)
Theorem buildTable_throws (container : option Page.markup) filtered :
  buildTable container filtered = Throws TypeError
  ↔ is_Some container ∧ Exists (λ gpu, Shown.renderable gpu = false) filtered.
Proof.
  unfold Page.buildTable. destruct container as [old|].
  - rewrite <- (tableRows_throws 0). destruct filtered as [|gpu rest].
    + simpl. split; [done|]. by intros [_ ?].
    + destruct (tableRows 0 (gpu :: rest)) as [rows|[]]; simpl.
      * split; [done|]. by intros [_ ?].
      * split; [|done]. intros _. split; [by eexists|done].
      * split; [done|]. by intros [_ ?].
  - split; [done|]. intros [[old Hold] _]. done.
Qed.

(** A non-empty list of renderable records gives a table with one row per
    record, in the order of the list: row [i] shows position [i + 1] and
    the name of record [i], and the badge of the best value is on the
    first row and on no other. *)
Theorem buildTable_rows (old : Page.markup) filtered :
  filtered ≠ [] →
  forallb Shown.renderable filtered = true →
  ∃ rows,
    buildTable (Some old) filtered = Returns (Some (Page.TableOf rows)) ∧
    length rows = length filtered ∧
    ∀ i r, rows !! i = Some r →
      Page.position r = numberToString (ofNat i + 1) ∧
      (Page.roi r = Page.BestValue ↔ i = 0%nat) ∧
      ∃ gpu, filtered !! i = Some gpu ∧
        Page.name r = toString numberToString (get gpu "name").
Proof.
  intros Hne Hall.
  destruct (tableRows 0 filtered) as [rows|[]] eqn:Hrows.
  - exists rows. split.
    { unfold Page.buildTable. destruct filtered; [done|]. by rewrite Hrows. }
    split; [by eapply tableRows_length|].
    intros i r Hr. destruct (tableRows_lookup _ _ _ _ _ Hrows Hr) as (gpu & Hgpu & Hrow).
    apply tableRow_inv in Hrow as (Hpos & Hname & _ & Hroi). simpl in *.
    split; [done|]. split; [|by exists gpu].
    rewrite Hroi. destruct i; simpl; [done|]. split; [done|lia].
  - apply tableRows_throws, Exists_exists in Hrows as (gpu & Hin & Hgpu).
    rewrite forallb_forall in Hall. rewrite list_elem_of_In in Hin.
    apply Hall in Hin. congruence.
  - by destruct (tableRows_no_RangeError 0 filtered).
Qed.

(** A record whose daily net is not positive never pays back: unless it
    is on the first row, which shows the badge of the best value instead,
    its row shows a dash for the days. *)
Theorem buildTable_unprofitable_row (old : Page.markup) filtered rows i gpu r :
  buildTable (Some old) filtered = Returns (Some (Page.TableOf rows)) →
  filtered !! i = Some gpu →
  rows !! i = Some r →
  (0 <? App.field stringToNumber (App.gpuMetrics stringToNumber gpu) "dailyNetArs")%float = false →
  Page.roi r = if (i =? 0)%nat then Page.BestValue else Page.Days (Shown.dash +:+ " días").
Proof.
  unfold Page.buildTable. destruct filtered as [|gpu0 rest]; [done|].
  destruct (tableRows 0 (gpu0 :: rest)) as [rows'|] eqn:Hrows; [|done].
  simpl. intros [= ->] Hgpu Hr Hnet.
  destruct (tableRows_lookup _ _ _ _ _ Hrows Hr) as (gpu' & Hgpu' & Hrow).
  assert (gpu' = gpu) as -> by congruence.
  apply tableRow_inv in Hrow as (_ & _ & _ & Hroi). simpl in Hroi.
  rewrite Hroi. destruct i; [done|]. simpl.
  unfold Spec.roiDaysOf, App.field at 1 2. rewrite gpuMetrics_roiDays.
  simpl. by rewrite Hnet.
Qed.

(** When the two filters retain no record, the page shows the empty
    state, the one of a page with no data, whatever the sort key. *)
Theorem applyFilters_nothing_retained gpus (searchText algoFilter sort : option string)
    (old : Page.markup) :
  forallb Spec.hasName gpus = true →
  forallb (λ gpu, negb (Spec.retained searchText algoFilter gpu)) gpus = true →
  Page.applyFilters stringToNumber numberToString localeNumber localeCurrency
    gpus (App.Controls searchText algoFilter sort) (Some old)
  = Returns (Some Page.EmptyState).
Proof.
  intros Hnames Hnone. unfold Page.applyFilters.
  rewrite applyFilters_filterStep, (filterStep_returns _ _ _ _ Hnames). simpl.
  assert (List.filter (Spec.retained searchText algoFilter) gpus = []) as ->; [|done].
  clear Hnames. induction gpus as [|gpu rest IH]; [done|]. simpl in *.
  apply andb_true_iff in Hnone as [Hgpu Hrest].
  apply negb_true_iff in Hgpu. rewrite Hgpu. by apply IH.
Qed.



End RenderingFacts.



Lemma buildTable_rows_witness :
  ∃ rows,
    Page.buildTable Example.stringToNumber Example.numberToString
      Sample.localeNumber Sample.localeCurrency
      (Some Page.Loading) [Example.fast; Example.slow]
    = Returns (Some (Page.TableOf rows)) ∧
    length rows = 2%nat ∧
    ∀ i r, rows !! i = Some r →
      Page.position r = Example.numberToString (ofNat i + 1) ∧
      (Page.roi r = Page.BestValue ↔ i = 0%nat) ∧
      ∃ gpu, [Example.fast; Example.slow] !! i = Some gpu ∧
        Page.name r = toString Example.numberToString (get gpu "name").
Proof.
  apply (buildTable_rows Example.stringToNumber Example.numberToString
           Sample.localeNumber Sample.localeCurrency
           Page.Loading [Example.fast; Example.slow]); [done|reflexivity].
Defined.

Lemma buildTable_unprofitable_row_witness :
  ∃ r : Page.row,
    Sample.hungryRows !! 1%nat = Some r ∧
    Page.roi r = Page.Days (Shown.dash +:+ " días").
Proof.
  eexists. split; [reflexivity|].
  apply (buildTable_unprofitable_row Example.stringToNumber Example.numberToString
           Sample.localeNumber Sample.localeCurrency
           Page.Loading [Example.fast; Sample.hungry] Sample.hungryRows 1 Sample.hungry _);
    [vm_compute; reflexivity|reflexivity|reflexivity|vm_compute; reflexivity].
Defined.

Lemma applyFilters_nothing_retained_witness :
  Page.applyFilters Example.stringToNumber Example.numberToString
    Sample.localeNumber Sample.localeCurrency
    [Example.slow; Example.fast] (App.Controls (Some "gtx") None None) (Some Page.Loading)
  = Returns (Some Page.EmptyState).
Proof.
  apply (applyFilters_nothing_retained Example.stringToNumber Example.numberToString
           Sample.localeNumber Sample.localeCurrency); reflexivity.
Defined.
(** ** The endpoints *)

Section EndpointFacts.
Implicit Types (s t : string) (apiParam apiBase : option string).

Lemma dropTrailingSlash_slash s : dropTrailingSlash (s +:+ "/") = s.
Proof.
  induction s as [|c s IH]; [done|]. rewrite append_cons.
  change (dropTrailingSlash (String c (s +:+ "/")))
    with (match s +:+ "/" with
          | EmptyString => if Ascii.eqb c "/"%char then EmptyString else String c (s +:+ "/")
          | _ => String c (dropTrailingSlash (s +:+ "/"))
          end).
  rewrite IH. by destruct s.
Qed.

Lemma dropTrailingSlash_no_slash s : (∀ t, s ≠ t +:+ "/") → dropTrailingSlash s = s.
Proof.
  induction s as [|c s IH]; [done|]. intros Hs. destruct s as [|d s].
  - simpl. destruct (Ascii.eqb_spec c "/"%char) as [->|]; [|done].
    by destruct (Hs EmptyString).
  - change (dropTrailingSlash (String c (String d s)))
      with (String c (dropTrailingSlash (String d s))).
    rewrite IH; [done|]. intros t Ht. apply (Hs (String c t)).
    by rewrite append_cons, Ht.
Qed.

Lemma not_data_file s : s +:+ "/gpus" ≠ "data/gpus.json".
Proof.
  intros H.
  do 14 (destruct s as [|? s]; [done|]; rewrite append_cons in H; injection H as _ H).
  by destruct s.
Qed.

Lemma NoDup_two {A} (x y : A) : x ≠ y → NoDup [x; y].
Proof.
  intros Hxy. apply NoDup_cons. split.
  - rewrite elem_of_cons, elem_of_nil. intros [?|[]]. done.
  - apply NoDup_singleton.
Qed.

Lemma NoDup_three {A} (x y z : A) : x ≠ y → x ≠ z → y ≠ z → NoDup [x; y; z].
Proof.
  intros Hxy Hxz Hyz. apply NoDup_cons. split; [|by apply NoDup_two].
  rewrite !elem_of_cons, elem_of_nil. intros [?|[?|[]]]; done.
Qed.

(** The two built-in endpoints are always candidates, the last two and in
    this order; at most one endpoint comes before them, and no endpoint is
    listed twice. *)
Theorem resolveApiCandidates_fallbacks apiParam apiBase :
  ∃ front,
    Page.resolveApiCandidates apiParam apiBase = front ++ ["/api/gpus"; "data/gpus.json"] ∧
    (length front ≤ 1)%nat ∧
    NoDup (Page.resolveApiCandidates apiParam apiBase).
Proof.
  unfold Page.resolveApiCandidates.
  destruct (truthy (if truthy apiParam then apiParam else apiBase)).
  - set (e := dropTrailingSlash _ +:+ "/gpus").
    assert (He : e ≠ "data/gpus.json") by apply not_data_file.
    unfold spreadSet. simpl.
    destruct (decide (e = "/api/gpus")) as [Heq|Hne].
    + exists []. rewrite Heq. split; [done|]. split; [simpl; lia|].
      by apply NoDup_two.
    + exists [e]. simpl.
      rewrite (bool_decide_eq_false_2 ("/api/gpus" ∈ [e])).
      2:{ rewrite elem_of_cons, elem_of_nil. intros [?|[]]. by apply Hne. }
      rewrite (bool_decide_eq_false_2 ("data/gpus.json" ∈ ["/api/gpus"; e])).
      2:{ rewrite !elem_of_cons, elem_of_nil. intros [?|[?|[]]]; [done|by apply He]. }
      split; [done|]. split; [done|].
      by apply NoDup_three.
  - exists []. split; [done|]. split; [simpl; lia|].
    by apply NoDup_two.
Qed.

(** A base address given with one slash at its end names the same
    candidates as the address without it, and its endpoint, the address
    followed by [/gpus], is the first candidate. *)
Theorem resolveApiCandidates_trailing_slash s apiBase :
  s ≠ EmptyString →
  (∀ t, s ≠ t +:+ "/") →
  Page.resolveApiCandidates (Some (s +:+ "/")) apiBase
  = Page.resolveApiCandidates (Some s) apiBase ∧
  head (Page.resolveApiCandidates (Some s) apiBase) = Some (s +:+ "/gpus").
Proof.
  intros Hne Hs. unfold Page.resolveApiCandidates. simpl.
  assert (Hslash : truthyStr (s +:+ "/") = true) by by destruct s.
  assert (Hplain : truthyStr s = true) by by destruct s.
  rewrite !Hslash, !Hplain. simpl. rewrite !Hslash, !Hplain. simpl.
  by rewrite dropTrailingSlash_slash, dropTrailingSlash_no_slash.
Qed.

Lemma resolveApiCandidates_trailing_slash_witness :
  Page.resolveApiCandidates (Some ("https://gpu.example/v1" +:+ "/")) None
  = Page.resolveApiCandidates (Some "https://gpu.example/v1") None ∧
  head (Page.resolveApiCandidates (Some "https://gpu.example/v1") None)
  = Some ("https://gpu.example/v1" +:+ "/gpus").
Proof.
  apply (resolveApiCandidates_trailing_slash "https://gpu.example/v1" None); [done|].
  intros t Ht. pose proof (f_equal dropTrailingSlash Ht) as Hdrop.
  rewrite dropTrailingSlash_slash in Hdrop. vm_compute in Hdrop. subst t.
  apply (f_equal String.length) in Ht. vm_compute in Ht. discriminate.
Defined.
End EndpointFacts.

(** ** Fetching and loading *)

Section LoadingFacts.
Variable stringToNumber : string → float.
Variable numberToString : float → string.
Variable localeNumber : float → nat → string.
Variable localeCurrency : float → string.
Variable errorMessage : exn → string.
Variable fetch : string → Page.fetched.
Implicit Types (candidates errors pre post : list string) (endpoint : string).
Implicit Types (apiParam apiBase : option string) (data : list obj).

#[local] Abbreviation attempt := (Page.attempt numberToString fetch).
#[local] Abbreviation fetchLoop := (Page.fetchLoop numberToString fetch).
#[local] Abbreviation fetchGpusFromSources := (Page.fetchGpusFromSources numberToString fetch).
#[local] Abbreviation loadGpus :=
  (Page.loadGpus stringToNumber numberToString localeNumber localeCurrency
     errorMessage fetch).

Lemma attempt_answers endpoint :
  Shown.answers fetch endpoint = true ↔ ∃ data, attempt endpoint = inr data.
Proof.
  unfold Shown.answers, Page.attempt.
  destruct (fetch endpoint) as [message|[] status statusText [message| |data]]; simpl;
    split; try done; try (by intros [data' ?]); by exists data.
Qed.

Lemma attempt_fails endpoint :
  Shown.answers fetch endpoint = false → ∃ message, attempt endpoint = inl message.
Proof.
  intros Hno. destruct (attempt endpoint) as [message|data] eqn:Hattempt; [by exists message|].
  assert (Shown.answers fetch endpoint = true) by (apply attempt_answers; by exists data).
  congruence.
Qed.

Lemma fetchLoop_first_answer pre endpoint post errors data :
  forallb (λ x, negb (Shown.answers fetch x)) pre = true →
  attempt endpoint = inr data →
  fetchLoop (pre ++ endpoint :: post) errors = (pre ++ [endpoint], Page.Loaded endpoint data).
Proof.
  revert errors. induction pre as [|x pre IH]; intros errors Hpre Hdata; simpl.
  - by rewrite Hdata.
  - simpl in Hpre. apply andb_true_iff in Hpre as [Hx Hpre].
    apply negb_true_iff, attempt_fails in Hx as [message ->].
    by rewrite IH.
Qed.

Lemma fetchLoop_all_fail candidates errors :
  forallb (λ x, negb (Shown.answers fetch x)) candidates = true →
  ∃ messages,
    Forall2 (λ x message, attempt x = inl message) candidates messages ∧
    fetchLoop candidates errors
    = (candidates,
       Page.Failed (join newline
         (errors ++ zip_with (λ x message, x +:+ ": " +:+ message) candidates messages))).
Proof.
  revert errors. induction candidates as [|x rest IH]; intros errors Hall; simpl.
  - exists []. split; [constructor|]. by rewrite app_nil_r.
  - simpl in Hall. apply andb_true_iff in Hall as [Hx Hrest].
    apply negb_true_iff, attempt_fails in Hx as [message Hx].
    destruct (IH (errors ++ [x +:+ ": " +:+ message]) Hrest) as (messages & Hmessages & Hloop).
    exists (message :: messages). split; [by constructor|].
    rewrite Hx, Hloop. simpl. by rewrite <- app_assoc.
Qed.

(** The first candidate that answers with an array wins: the candidates
    before it are fetched once each, in order, the ones after it are not
    fetched, and its array is the data, with [lastDataSource] set to it. *)
Theorem fetchGpusFromSources_first_answer apiParam apiBase pre endpoint post
    (status : float) (statusText : string) data :
  Page.resolveApiCandidates apiParam apiBase = pre ++ endpoint :: post →
  forallb (λ x, negb (Shown.answers fetch x)) pre = true →
  fetch endpoint = Page.Response true status statusText (Page.ArrayOf data) →
  fetchGpusFromSources apiParam apiBase = (pre ++ [endpoint], Page.Loaded endpoint data).
Proof.
  intros Hcandidates Hpre Hendpoint. unfold Page.fetchGpusFromSources.
  rewrite Hcandidates. apply fetchLoop_first_answer; [done|].
  unfold Page.attempt. by rewrite Hendpoint.
Qed.

(** When no candidate answers with an array, every candidate is fetched
    once, in order, and the call throws an error whose message has one
    line for each candidate: the endpoint, a colon and the message of its
    failure. *)
Theorem fetchGpusFromSources_all_fail apiParam apiBase :
  forallb (λ x, negb (Shown.answers fetch x)) (Page.resolveApiCandidates apiParam apiBase) = true →
  ∃ messages,
    Forall2 (λ x message, attempt x = inl message)
      (Page.resolveApiCandidates apiParam apiBase) messages ∧
    fetchGpusFromSources apiParam apiBase
    = (Page.resolveApiCandidates apiParam apiBase,
       Page.Failed (join newline
         (zip_with (λ x message, x +:+ ": " +:+ message)
            (Page.resolveApiCandidates apiParam apiBase) messages))).
Proof.
  intros Hall. unfold Page.fetchGpusFromSources.
  by destruct (fetchLoop_all_fail _ [] Hall) as (messages & Hmessages & ->); exists messages.
Qed.

Lemma buildTable_returns_inv (container m : option Page.markup) (filtered : list obj) :
  Page.buildTable stringToNumber numberToString localeNumber localeCurrency container filtered
  = Returns m →
  (container = None ∧ m = None) ∨
  (is_Some container ∧ (m = Some Page.EmptyState ∨ ∃ rows, m = Some (Page.TableOf rows))).
Proof.
  unfold Page.buildTable. destruct container as [old|].
  - destruct filtered as [|gpu rest].
    + intros [= <-]. right. split; [by eexists|by left].
    + destruct (Page.tableRows _ _ _ _ _ _) as [rows|]; simpl; [|done].
      intros [= <-]. right. split; [by eexists|]. right. by exists rows.
  - intros [= <-]. by left.
Qed.

(** When no candidate answers, [loadGpus] leaves [gpus] and
    [lastDataSource] as they were, and a page with a table container shows
    the error with the lines of its message, each line feed a break. *)
Theorem loadGpus_failure apiParam apiBase (c : App.controls) (st : Page.state) :
  forallb (λ x, negb (Shown.answers fetch x)) (Page.resolveApiCandidates apiParam apiBase) = true →
  ∃ messages,
    Forall2 (λ x message, attempt x = inl message)
      (Page.resolveApiCandidates apiParam apiBase) messages ∧
    loadGpus apiParam apiBase c st
    = Page.State (Page.gpus st) (Page.lastDataSource st)
        (Page.show
           (Page.LoadError (breakLines (join newline
              (zip_with (λ x message, x +:+ ": " +:+ message)
                 (Page.resolveApiCandidates apiParam apiBase) messages))))
           (Page.container st)).
Proof.
  intros Hall. unfold Page.loadGpus, Page.fetchGpusFromSources.
  destruct (fetchLoop_all_fail _ [] Hall) as (messages & Hmessages & ->).
  exists messages. split; [done|]. simpl. by destruct (Page.container st).
Qed.

(** When a candidate answers, [gpus] becomes its array as received,
    whatever the controls filter out, and [lastDataSource] its endpoint,
    even when the rendering of the table throws; in that case a page with
    a table container shows the error instead of the table. *)
Theorem loadGpus_success apiParam apiBase (c : App.controls) (st : Page.state)
    pre endpoint post (status : float) (statusText : string) data :
  Page.resolveApiCandidates apiParam apiBase = pre ++ endpoint :: post →
  forallb (λ x, negb (Shown.answers fetch x)) pre = true →
  fetch endpoint = Page.Response true status statusText (Page.ArrayOf data) →
  Page.gpus (loadGpus apiParam apiBase c st) = data ∧
  Page.lastDataSource (loadGpus apiParam apiBase c st) = endpoint ∧
  (Page.applyFilters stringToNumber numberToString localeNumber localeCurrency
     data c (Page.container st) = Throws TypeError →
   Page.container (loadGpus apiParam apiBase c st)
   = Page.show (Page.LoadError (breakLines (errorMessage TypeError))) (Page.container st)).
Proof.
  intros Hcandidates Hpre Hendpoint. unfold Page.loadGpus, Page.fetchGpusFromSources.
  rewrite Hcandidates, (fetchLoop_first_answer pre endpoint post [] data Hpre).
  2:{ unfold Page.attempt. by rewrite Hendpoint. }
  simpl. unfold Page.applyFilters.
  destruct (App.applyFilters stringToNumber data c) as [result|error]; simpl.
  - destruct (Page.container st) as [old|]; simpl.
    + destruct result as [|gpu rest]; [done|].
      destruct (Page.tableRows _ _ _ _ _ _) as [rows|error]; simpl; [done|].
      split_and!; [done..|]. by intros [= ->].
    + done.
  - split_and!; [done..|]. intros [= ->]. by destruct (Page.container st).
Qed.

(** [loadGpus] never leaves the notice of loading on the page: a table
    container ends with the table, the empty state or the error, and a
    page without one stays without. *)
Theorem loadGpus_notice_replaced apiParam apiBase (c : App.controls) (st : Page.state) :
  Page.container (loadGpus apiParam apiBase c st) ≠ Some Page.Loading ∧
  (is_Some (Page.container (loadGpus apiParam apiBase c st)) ↔ is_Some (Page.container st)).
Proof.
  unfold Page.loadGpus.
  destruct (fetchGpusFromSources apiParam apiBase).2 as [endpoint data|message].
  - destruct (Page.applyFilters _ _ _ _ _ _ _) as [m|error] eqn:Hshown; simpl.
    + unfold Page.applyFilters in Hshown.
      destruct (App.applyFilters stringToNumber data c) as [result|]; [|done].
      simpl in Hshown. apply buildTable_returns_inv in Hshown.
      destruct (Page.container st) as [old|]; simpl in Hshown.
      * destruct Hshown as [[? _]|[_ [->|[rows ->]]]]; [done|..];
          (split; [done|]); split; by eexists.
      * destruct Hshown as [[_ ->]|[[? ?] _]]; [|done]. split; [done|]. done.
    + destruct (Page.container st); simpl; (split; [done|]); [split; by eexists|done].
  - simpl. destruct (Page.container st); simpl; (split; [done|]); [split; by eexists|done].
Qed.
End LoadingFacts.

Lemma fetchGpusFromSources_first_answer_witness :
  Page.fetchGpusFromSources Example.numberToString Sample.fetch
    (Some "https://gpu.example/v1/") None
  = (["https://gpu.example/v1/gpus"; "/api/gpus"] ++ ["data/gpus.json"],
     Page.Loaded "data/gpus.json" [Example.slow; Example.fast]).
Proof.
  apply (fetchGpusFromSources_first_answer Example.numberToString Sample.fetch
           (Some "https://gpu.example/v1/") None
           ["https://gpu.example/v1/gpus"; "/api/gpus"] "data/gpus.json" []
           200 "OK" [Example.slow; Example.fast]); reflexivity.
Defined.

Lemma fetchGpusFromSources_all_fail_witness :
  ∃ messages,
    Forall2 (λ x message, Page.attempt Example.numberToString Sample.offline x = inl message)
      (Page.resolveApiCandidates None None) messages ∧
    Page.fetchGpusFromSources Example.numberToString Sample.offline None None
    = (Page.resolveApiCandidates None None,
       Page.Failed (join newline
         (zip_with (λ x message, x +:+ ": " +:+ message)
            (Page.resolveApiCandidates None None) messages))).
Proof.
  apply (fetchGpusFromSources_all_fail Example.numberToString Sample.offline None None).
  reflexivity.
Defined.

Lemma loadGpus_failure_witness :
  ∃ messages,
    Forall2 (λ x message, Page.attempt Example.numberToString Sample.offline x = inl message)
      (Page.resolveApiCandidates None None) messages ∧
    Page.loadGpus Example.stringToNumber Example.numberToString
      Sample.localeNumber Sample.localeCurrency Sample.errorMessage Sample.offline
      None None Example.noControls (Page.State [Example.slow] "/api/gpus" (Some Page.EmptyState))
    = Page.State [Example.slow] "/api/gpus"
        (Page.show
           (Page.LoadError (breakLines (join newline
              (zip_with (λ x message, x +:+ ": " +:+ message)
                 (Page.resolveApiCandidates None None) messages))))
           (Some Page.EmptyState)).
Proof.
  apply (loadGpus_failure Example.stringToNumber Example.numberToString
           Sample.localeNumber Sample.localeCurrency Sample.errorMessage Sample.offline
           None None Example.noControls
           (Page.State [Example.slow] "/api/gpus" (Some Page.EmptyState))).
  reflexivity.
Defined.

Lemma loadGpus_success_witness :
  let st :=
    Page.loadGpus Example.stringToNumber Example.numberToString
      Sample.localeNumber Sample.localeCurrency Sample.errorMessage Sample.fetchBare
      None None Example.noControls (Page.State [] EmptyString (Some Page.EmptyState)) in
  Page.gpus st = [Sample.bare] ∧
  Page.lastDataSource st = "/api/gpus" ∧
  Page.container st = Some (Page.LoadError (breakLines (Sample.errorMessage TypeError))).
Proof.
  destruct (loadGpus_success Example.stringToNumber Example.numberToString
              Sample.localeNumber Sample.localeCurrency Sample.errorMessage
              Sample.fetchBare None None Example.noControls
              (Page.State [] EmptyString (Some Page.EmptyState))
              [] "/api/gpus" ["data/gpus.json"] 200 "OK" [Sample.bare])
    as (Hgpus & Hsource & Hcontainer); [reflexivity..|].
  split; [exact Hgpus|]. split; [exact Hsource|]. apply Hcontainer. reflexivity.
Defined.

(** ** The table script *)

Section TableUiFacts.
Variable stringToNumber : string → float.
Variable numberToString : float → string.
Variable toFixed : float → nat → string.
Variable mathRound : float → float.
Implicit Types (st : TableUi.state) (data shown : list obj) (gpu : obj).
Implicit Types (rows : list (list string)).

#[local] Abbreviation rowCells := (TableUi.rowCells numberToString toFixed).
#[local] Abbreviation appendRows := (TableUi.appendRows numberToString toFixed).
#[local] Abbreviation displayTable := (TableUi.displayTable numberToString toFixed).
#[local] Abbreviation enrichGpu := (Table.enrichGpu stringToNumber toFixed mathRound).
#[local] Abbreviation enrichGpuData := (Table.enrichGpuData stringToNumber toFixed mathRound).
#[local] Abbreviation sorter := (TableUi.sorter stringToNumber numberToString).
#[local] Abbreviation applySearchFilter :=
  (TableUi.applySearchFilter stringToNumber numberToString toFixed).
#[local] Abbreviation headerClick :=
  (TableUi.headerClick stringToNumber numberToString toFixed).
#[local] Abbreviation loadGpus :=
  (TableUi.loadGpus stringToNumber numberToString toFixed mathRound).

Lemma rowCells_number gpu :
  isNumber (get gpu "efficiency") = true →
  ∃ cells, rowCells gpu = Returns cells ∧ length cells = 8%nat.
Proof.
  unfold TableUi.rowCells. destruct (get gpu "efficiency"); try done.
  intros _. by eexists.
Qed.

Lemma rowCells_not_number gpu :
  isNumber (get gpu "efficiency") = false → rowCells gpu = Throws TypeError.
Proof. unfold TableUi.rowCells. by destruct (get gpu "efficiency"). Qed.

Lemma appendRows_numbers rows0 data :
  forallb (λ gpu, isNumber (get gpu "efficiency")) data = true →
  ∃ rows,
    appendRows rows0 data = (Returns (), rows0 ++ rows) ∧
    length rows = length data ∧
    Forall (λ cells, length cells = 8%nat) rows.
Proof.
  revert rows0. induction data as [|gpu rest IH]; intros rows0 Hall; simpl.
  - exists []. by rewrite app_nil_r.
  - simpl in Hall. apply andb_true_iff in Hall as [Hgpu Hrest].
    destruct (rowCells_number gpu Hgpu) as (cells & -> & Hcells).
    destruct (IH (rows0 ++ [cells]) Hrest) as (rows & -> & Hlen & Hall).
    exists (cells :: rows). rewrite <- app_assoc. simpl.
    split; [done|]. split; [by rewrite Hlen|by constructor].
Qed.

Lemma enrichGpu_efficiency gpu : isNumber (get (enrichGpu gpu) "efficiency") = true.
Proof.
  unfold Table.enrichGpu, get.
  rewrite lookup_insert_ne; [|done]. rewrite lookup_insert_ne; [|done].
  by rewrite lookup_insert_eq.
Qed.

Lemma enrichGpuData_efficiency data :
  forallb (λ gpu, isNumber (get gpu "efficiency")) (enrichGpuData data) = true.
Proof.
  induction data as [|gpu rest IH]; [done|].
  unfold Table.enrichGpuData in *. rewrite fmap_cons. cbn [forallb].
  by rewrite enrichGpu_efficiency, IH.
Qed.

(** Loading a data file puts the enriched records in [gpuData] and
    in [currentDisplayed], and a page with a table body shows them all: the
    rows that were there are gone, and there is one row of eight cells for
    each record of the file, whatever the records hold. With no data the
    state stays as it is. *)
Theorem loadGpus_displays_all data st :
  loadGpus None st = st ∧
  TableUi.gpuData (loadGpus (Some data) st) = enrichGpuData data ∧
  TableUi.currentDisplayed (loadGpus (Some data) st) = enrichGpuData data ∧
  (is_Some (TableUi.tbody st) →
   ∃ rows,
     TableUi.tbody (loadGpus (Some data) st) = Some rows ∧
     length rows = length data ∧
     Forall (λ cells, length cells = 8%nat) rows).
Proof.
  split; [done|]. unfold TableUi.loadGpus, TableUi.displayTable.
  destruct (TableUi.tbody st) as [old|]; simpl.
  - destruct (appendRows_numbers [] _ (enrichGpuData_efficiency data))
      as (rows & Happend & Hlen & Hall).
    rewrite Happend. simpl. split_and!; [done..|]. intros _. exists rows.
    split; [done|]. split; [|done].
    rewrite Hlen. unfold Table.enrichGpuData. by rewrite length_fmap.
  - split_and!; [done..|]. by intros [? ?].
Qed.

(** [displayTable] stops at the first record whose [efficiency] is not a
    number, with a TypeError: the rows of the records before it are in the
    table body, and no row of a record after it. *)
Theorem displayTable_stops (old : list (list string)) pre gpu post :
  forallb (λ gpu, isNumber (get gpu "efficiency")) pre = true →
  isNumber (get gpu "efficiency") = false →
  ∃ rows,
    displayTable (Some old) (pre ++ gpu :: post) = (Throws TypeError, Some rows) ∧
    length rows = length pre.
Proof.
  intros Hpre Hgpu. unfold TableUi.displayTable.
  assert (Hgen : ∀ rows0, ∃ rows,
    appendRows rows0 (pre ++ gpu :: post) = (Throws TypeError, rows0 ++ rows) ∧
    length rows = length pre).
  { clear old. induction pre as [|x pre IH]; intros rows0; simpl.
    - rewrite (rowCells_not_number gpu Hgpu). exists []. by rewrite app_nil_r.
    - simpl in Hpre. apply andb_true_iff in Hpre as [Hx Hpre].
      destruct (rowCells_number x Hx) as (cells & -> & _).
      destruct (IH Hpre (rows0 ++ [cells])) as (rows & -> & Hlen).
      exists (cells :: rows). rewrite <- app_assoc. simpl. by rewrite Hlen. }
  destruct (Hgen []) as (rows & -> & Hlen). by exists rows.
Qed.

Lemma headerClick_state (key : string) st :
  truthyStr key = true →
  let order :=
    if App.caseIs (TableUi.currentSortKey st) key
    then (if String.eqb (TableUi.currentSortOrder st) "asc" then "desc" else "asc")
    else "asc" in
  let st' := (headerClick (Some key) st).2 in
  TableUi.gpuData st' = TableUi.gpuData st ∧
  TableUi.currentDisplayed st' = arraySort (sorter key order) (TableUi.currentDisplayed st) ∧
  TableUi.currentSortKey st' = Some key ∧
  TableUi.currentSortOrder st' = order.
Proof.
  intros Hkey. unfold TableUi.headerClick. simpl. rewrite Hkey. simpl.
  destruct (displayTable _ _) as [r tbody']. simpl. split_and!; try done.
  unfold App.caseIs. destruct (TableUi.currentSortKey st) as [k|]; [|done].
  destruct (String.eqb_spec k key) as [->|]; done.
Qed.

(** The first click on a column other than the current one sorts it in
    ascending order, a second click on it in descending order, and a third
    in ascending order again; the column stays the current one. *)
Theorem headerClick_toggles (key : string) st :
  key ≠ EmptyString →
  TableUi.currentSortKey st ≠ Some key →
  let st1 := (headerClick (Some key) st).2 in
  let st2 := (headerClick (Some key) st1).2 in
  let st3 := (headerClick (Some key) st2).2 in
  (TableUi.currentSortKey st1, TableUi.currentSortOrder st1) = (Some key, "asc") ∧
  (TableUi.currentSortKey st2, TableUi.currentSortOrder st2) = (Some key, "desc") ∧
  (TableUi.currentSortKey st3, TableUi.currentSortOrder st3) = (Some key, "asc").
Proof.
  intros Hne Hother st1 st2 st3.
  assert (Hkey : truthyStr key = true) by by destruct key.
  destruct (headerClick_state key st Hkey) as (_ & _ & Hk1 & Ho1). fold st1 in Hk1, Ho1.
  destruct (headerClick_state key st1 Hkey) as (_ & _ & Hk2 & Ho2). fold st2 in Hk2, Ho2.
  destruct (headerClick_state key st2 Hkey) as (_ & _ & Hk3 & Ho3). fold st3 in Hk3, Ho3.
  assert (Hself : App.caseIs (Some key) key = true) by apply String.eqb_refl.
  assert (Hfirst : App.caseIs (TableUi.currentSortKey st) key = false).
  { unfold App.caseIs. destruct (TableUi.currentSortKey st) as [k|]; [|done].
    destruct (String.eqb_spec k key) as [->|]; done. }
  rewrite Hfirst in Ho1. rewrite Hk1, Hself, Ho1 in Ho2. simpl in Ho2.
  rewrite Hk2, Hself, Ho2 in Ho3. simpl in Ho3.
  by rewrite Hk1, Ho1, Hk2, Ho2, Hk3, Ho3.
Qed.

(** A click on a header never changes [gpuData], and the records
    displayed after it are the records displayed before it, rearranged; a
    header without a key changes nothing at all. *)
Theorem headerClick_keeps_records (dataKey : option string) st :
  TableUi.gpuData (headerClick dataKey st).2 = TableUi.gpuData st ∧
  TableUi.currentDisplayed (headerClick dataKey st).2 ≡ₚ TableUi.currentDisplayed st ∧
  (truthy dataKey = false → headerClick dataKey st = (Returns (), st)).
Proof.
  destruct (truthy dataKey) eqn:Hkey.
  - destruct dataKey as [key|]; [|done]. simpl in Hkey.
    destruct (headerClick_state key st Hkey) as (Hdata & Hshown & _).
    split; [done|]. split; [|done]. rewrite Hshown. apply arraySort_perm.
  - unfold TableUi.headerClick. by rewrite Hkey.
Qed.

(** On records that have names, a search shows the records of [gpuData]
    whose name contains the text of the search box as typed, letter case
    apart and white space included, in some order; it changes neither
    [gpuData] nor the current sort column and order. *)
Theorem applySearchFilter_shows_matches (searchInput : option string) st :
  forallb Spec.hasName (TableUi.gpuData st) = true →
  let st' := (applySearchFilter searchInput st).2 in
  TableUi.gpuData st' = TableUi.gpuData st ∧
  TableUi.currentDisplayed st'
    ≡ₚ List.filter (Spec.nameContains (default EmptyString searchInput)) (TableUi.gpuData st) ∧
  TableUi.currentSortKey st' = TableUi.currentSortKey st ∧
  TableUi.currentSortOrder st' = TableUi.currentSortOrder st.
Proof.
  intros Hnames. unfold TableUi.applySearchFilter.
  rewrite (filterE_nameMatches _ _ Hnames).
  destruct (displayTable _ _) as [r tbody']. simpl. split_and!; try done.
  assert (Hquery : match searchInput with Some v => toLowerCase v | None => EmptyString end
                   = toLowerCase (default EmptyString searchInput)) by by destruct searchInput.
  rewrite Hquery. destruct (truthy (TableUi.currentSortKey st)); [by rewrite arraySort_perm|done].
Qed.

(** A record of [gpuData] whose name is not a string makes every search
    throw a TypeError, the one for the empty text included, and the state
    and the table body stay as they were. *)
Theorem applySearchFilter_nameless (searchInput : option string) st :
  forallb Spec.hasName (TableUi.gpuData st) = false →
  applySearchFilter searchInput st = (Throws TypeError, st).
Proof.
  intros Hnames. unfold TableUi.applySearchFilter.
  by rewrite (filterE_nameMatches_throws _ _ Hnames).
Qed.
End TableUiFacts.

Lemma displayTable_stops_witness :
  ∃ rows,
    TableUi.displayTable Example.numberToString Example.toFixed (Some [])
      (Table.enrichGpuData Example.stringToNumber Example.toFixed Example.mathRound
         [Example.fast] ++ Example.slow :: [Example.fast])
    = (Throws TypeError, Some rows) ∧
    length rows = 1%nat.
Proof.
  apply (displayTable_stops Example.numberToString Example.toFixed []
           (Table.enrichGpuData Example.stringToNumber Example.toFixed Example.mathRound
              [Example.fast])
           Example.slow [Example.fast]); reflexivity.
Defined.

Lemma headerClick_toggles_witness :
  let click :=
    TableUi.headerClick Example.stringToNumber Example.numberToString Example.toFixed
      (Some "hashrate") in
  let st1 := (click Sample.loadedTable).2 in
  let st2 := (click st1).2 in
  let st3 := (click st2).2 in
  (TableUi.currentSortKey st1, TableUi.currentSortOrder st1) = (Some "hashrate", "asc") ∧
  (TableUi.currentSortKey st2, TableUi.currentSortOrder st2) = (Some "hashrate", "desc") ∧
  (TableUi.currentSortKey st3, TableUi.currentSortOrder st3) = (Some "hashrate", "asc").
Proof.
  apply (headerClick_toggles Example.stringToNumber Example.numberToString Example.toFixed
           "hashrate" Sample.loadedTable); [done|].
  vm_compute. discriminate.
Defined.

Lemma applySearchFilter_shows_matches_witness :
  let st' :=
    (TableUi.applySearchFilter Example.stringToNumber Example.numberToString Example.toFixed
       (Some "rx") Sample.loadedTable).2 in
  TableUi.gpuData st' = TableUi.gpuData Sample.loadedTable ∧
  TableUi.currentDisplayed st'
    ≡ₚ List.filter (Spec.nameContains "rx") (TableUi.gpuData Sample.loadedTable) ∧
  TableUi.currentSortKey st' = TableUi.currentSortKey Sample.loadedTable ∧
  TableUi.currentSortOrder st' = TableUi.currentSortOrder Sample.loadedTable.
Proof.
  apply (applySearchFilter_shows_matches Example.stringToNumber Example.numberToString
           Example.toFixed (Some "rx") Sample.loadedTable).
  vm_compute. reflexivity.
Defined.

Lemma applySearchFilter_nameless_witness :
  TableUi.applySearchFilter Example.stringToNumber Example.numberToString Example.toFixed
    None Sample.namelessTable
  = (Throws TypeError, Sample.namelessTable).
Proof.
  apply (applySearchFilter_nameless Example.stringToNumber Example.numberToString
           Example.toFixed None Sample.namelessTable).
  reflexivity.
Defined.

(** ** Sorting by a column *)

Lemma SFleb_trans (a b c : spec_float) :
  SFleb a b = true → SFleb b c = true → SFleb a c = true.
Proof.
  unfold SFleb.
  destruct a as [[]|[]| |[] ma ea], b as [[]|[]| |[] mb eb], c as [[]|[]| |[] mc ec];
    simpl; try done.
  all: change (Pos.compare_cont Eq ma mb) with (Pos.compare ma mb).
  all: change (Pos.compare_cont Eq mb mc) with (Pos.compare mb mc).
  all: change (Pos.compare_cont Eq ma mc) with (Pos.compare ma mc).
  all: destruct (Z.compare_spec ea eb), (Z.compare_spec eb ec), (Z.compare_spec ea ec);
    try lia; try done.
  all: destruct (Pos.compare_spec ma mb), (Pos.compare_spec mb mc), (Pos.compare_spec ma mc);
    simpl; try lia; try done.
Qed.

Lemma float_leb_trans (x y z : float) :
  (x <=? y)%float = true → (y <=? z)%float = true → (x <=? z)%float = true.
Proof. rewrite !leb_spec. apply SFleb_trans. Qed.

Lemma float_ltb_leb (x y : float) : (x <? y)%float = true → (x <=? y)%float = true.
Proof.
  rewrite ltb_spec, leb_spec. unfold SFltb, SFleb.
  by destruct (SFcompare (Prim2SF x) (Prim2SF y)) as [[]|].
Qed.

Lemma float_not_nan (x : float) : PrimFloat.is_nan x = false → Prim2SF x ≠ S754_nan.
Proof.
  unfold PrimFloat.is_nan. rewrite negb_false_iff, FloatAxioms.eqb_spec.
  intros Heq Hnan. rewrite Hnan in Heq. done.
Qed.

Lemma float_not_ltb_leb (x y : float) :
  PrimFloat.is_nan x = false → PrimFloat.is_nan y = false →
  (y <? x)%float = false → (x <=? y)%float = true.
Proof.
  intros Hx%float_not_nan Hy%float_not_nan.
  rewrite ltb_spec, leb_spec. unfold SFltb, SFleb.
  rewrite (SFcompare_swap (Prim2SF x)).
  destruct (SFcompare (Prim2SF x) (Prim2SF y)) as [[]|] eqn:Hc; try done.
  by destruct (Prim2SF x) as [[]|[]| |[] ? ?], (Prim2SF y) as [[]|[]| |[] ? ?].
Qed.

Lemma string_ltb_leb (s t : string) : String.ltb s t = true → String.leb s t = true.
Proof. unfold String.ltb, String.leb. by destruct (String.compare s t). Qed.

Lemma string_not_ltb_leb (s t : string) : String.ltb t s = false → String.leb s t = true.
Proof.
  unfold String.ltb, String.leb. rewrite (String.compare_antisym t s).
  by destruct (String.compare s t).
Qed.

Lemma string_leb_trans (s t u : string) :
  String.leb s t = true → String.leb t u = true → String.leb s u = true.
Proof.
  intros Hst%Is_true_true Htu%Is_true_true. apply Is_true_true.
  change (String.le s u). by transitivity t.
Qed.

Section SortedFacts.
Context {A : Type}.
Variable cmp : A → A → float.
Variable follows : A → A → Prop.
Variable domain : A → Prop.
Hypothesis follows_not_after :
  ∀ a b, domain a → domain b → sortsAfter cmp a b = false → follows a b.
Hypothesis follows_after :
  ∀ a b, domain a → domain b → sortsAfter cmp a b = true → follows b a.
Hypothesis follows_trans :
  ∀ a b c, domain a → domain b → domain c → follows a b → follows b c → follows a c.

Lemma insertSorted_sorted (x : A) (l : list A) :
  domain x → Forall domain l →
  StronglySorted follows l → StronglySorted follows (insertSorted cmp x l).
Proof.
  intros Hx Hl Hsorted. induction Hsorted as [|y l Hsorted IH Hy]; simpl.
  - by repeat constructor.
  - apply Forall_cons in Hl as [Hdy Hl].
    destruct (sortsAfter cmp x y) eqn:Hafter.
    + constructor; [by apply IH|].
      rewrite insertSorted_perm. constructor; [by apply follows_after|done].
    + assert (Hxy : follows x y) by by apply follows_not_after.
      constructor; [by constructor|]. constructor; [done|].
      rewrite Forall_forall in Hy, Hl. apply Forall_forall. intros z Hz.
      apply (follows_trans x y z); auto.
Qed.

Lemma arraySort_sorted (l : list A) :
  Forall domain l → StronglySorted follows (arraySort cmp l).
Proof.
  induction l as [|x l IH]; intros Hl; [constructor|].
  apply Forall_cons in Hl as [Hx Hl]. cbn [arraySort foldr].
  apply insertSorted_sorted; [done| |by apply IH].
  change (foldr (insertSorted cmp) [] l) with (arraySort cmp l).
  by rewrite arraySort_perm.
Qed.
End SortedFacts.

Section ColumnFacts.
Variable stringToNumber : string → float.
Variable numberToString : float → string.
Variable toFixed : float → nat → string.
Implicit Types (st : TableUi.state) (a b gpu : obj) (key order : string).

#[local] Abbreviation sorter := (TableUi.sorter stringToNumber numberToString).
#[local] Abbreviation headerClick :=
  (TableUi.headerClick stringToNumber numberToString toFixed).
#[local] Abbreviation operands := (Spec.operands numberToString).
#[local] Abbreviation textOf := (Spec.textOf numberToString).

(** The comparator of a column orders [a] after [b] exactly when the
    operand of [a] is the greater one in ascending order, the smaller one
    otherwise. *)
Lemma sortsAfter_sorter key order a b :
  sortsAfter (sorter key order) a b
  = if String.eqb order "asc"
    then lessThan stringToNumber (operands key a b).2 (operands key a b).1
    else lessThan stringToNumber (operands key a b).1 (operands key a b).2.
Proof.
  unfold TableUi.sorter, sortsAfter. rewrite compareValues_operands.
  pose proof (operands_lessThan_asym stringToNumber numberToString key a b) as Hasym.
  destruct (operands key a b) as [valueA valueB]. simpl in *.
  destruct (String.eqb order "asc");
    destruct (lessThan stringToNumber valueA valueB);
    destruct (lessThan stringToNumber valueB valueA); try done;
    by specialize (Hasym eq_refl).
Qed.

Lemma operands_numbers key a b :
  Shown.hasNumber key a = true → Shown.hasNumber key b = true →
  operands key a b = (VNum (Shown.numberOf key a), VNum (Shown.numberOf key b)).
Proof.
  unfold Shown.hasNumber, Shown.numberOf, Spec.operands.
  by destruct (get a key), (get b key).
Qed.

Lemma operands_texts key a b :
  isNumber (get a key) = false → isNumber (get b key) = false →
  operands key a b = (VStr (textOf (get a key)), VStr (textOf (get b key))).
Proof. unfold Spec.operands. by intros -> ->. Qed.

Lemma hasNumber_not_nan key gpu :
  Shown.hasNumber key gpu = true → PrimFloat.is_nan (Shown.numberOf key gpu) = false.
Proof.
  unfold Shown.hasNumber, Shown.numberOf. destruct (get gpu key); try done.
  by rewrite negb_true_iff.
Qed.

Lemma arraySort_sorter_numbers key order (l : list obj) :
  forallb (Shown.hasNumber key) l = true →
  StronglySorted
    (λ a b, Shown.inOrder order PrimFloat.leb
              (Shown.numberOf key a) (Shown.numberOf key b) = true)
    (arraySort (sorter key order) l).
Proof.
  intros Hnumbers.
  apply (arraySort_sorted _ _ (λ gpu, Shown.hasNumber key gpu = true)).
  - intros a b Ha Hb. rewrite sortsAfter_sorter, (operands_numbers key a b Ha Hb).
    apply hasNumber_not_nan in Ha, Hb. unfold Shown.inOrder. simpl.
    destruct (String.eqb order "asc"); by apply float_not_ltb_leb.
  - intros a b Ha Hb. rewrite sortsAfter_sorter, (operands_numbers key a b Ha Hb).
    unfold Shown.inOrder. simpl.
    destruct (String.eqb order "asc"); apply float_ltb_leb.
  - intros a b c _ _ _. unfold Shown.inOrder.
    destruct (String.eqb order "asc"); intros Hab Hbc; by eapply float_leb_trans.
  - apply Forall_forall. intros gpu Hgpu. rewrite forallb_forall in Hnumbers.
    apply Hnumbers. by rewrite <- list_elem_of_In.
Qed.

Lemma arraySort_sorter_texts key order (l : list obj) :
  forallb (λ gpu, negb (isNumber (get gpu key))) l = true →
  StronglySorted
    (λ a b, Shown.inOrder order String.leb
              (textOf (get a key)) (textOf (get b key)) = true)
    (arraySort (sorter key order) l).
Proof.
  intros Htexts.
  apply (arraySort_sorted _ _ (λ gpu, isNumber (get gpu key) = false)).
  - intros a b Ha Hb. rewrite sortsAfter_sorter, (operands_texts key a b Ha Hb).
    unfold Shown.inOrder. simpl.
    destruct (String.eqb order "asc"); apply string_not_ltb_leb.
  - intros a b Ha Hb. rewrite sortsAfter_sorter, (operands_texts key a b Ha Hb).
    unfold Shown.inOrder. simpl.
    destruct (String.eqb order "asc"); apply string_ltb_leb.
  - intros a b c _ _ _. unfold Shown.inOrder.
    destruct (String.eqb order "asc"); intros Hab Hbc; by eapply string_leb_trans.
  - apply Forall_forall. intros gpu Hgpu. rewrite forallb_forall in Htexts.
    apply negb_true_iff, Htexts. by rewrite <- list_elem_of_In.
Qed.

(** A click on the header of a column in which every displayed record
    holds a number that is not NaN leaves the displayed records sorted by
    that number: in ascending order when the order after the click is
    ["asc"], in descending order when it is ["desc"]. *)
Theorem headerClick_sorts_numbers key st :
  key ≠ EmptyString →
  forallb (Shown.hasNumber key) (TableUi.currentDisplayed st) = true →
  let st' := (headerClick (Some key) st).2 in
  StronglySorted
    (λ a b, Shown.inOrder (TableUi.currentSortOrder st') PrimFloat.leb
              (Shown.numberOf key a) (Shown.numberOf key b) = true)
    (TableUi.currentDisplayed st').
Proof.
  intros Hne Hnumbers st'.
  assert (Hkey : truthyStr key = true) by by destruct key.
  destruct (headerClick_state stringToNumber numberToString toFixed key st Hkey)
    as (_ & Hshown & _ & Horder).
  fold st' in Hshown, Horder. rewrite Hshown, Horder.
  by apply arraySort_sorter_numbers.
Qed.

(** A click on the header of a column in which no displayed record holds
    a number leaves the displayed records sorted by the text of that
    column in lower case, characters compared by their codes: in
    ascending order when the order after the click is ["asc"], in
    descending order when it is ["desc"]. *)
Theorem headerClick_sorts_texts key st :
  key ≠ EmptyString →
  forallb (λ gpu, negb (isNumber (get gpu key))) (TableUi.currentDisplayed st) = true →
  let st' := (headerClick (Some key) st).2 in
  StronglySorted
    (λ a b, Shown.inOrder (TableUi.currentSortOrder st') String.leb
              (textOf (get a key)) (textOf (get b key)) = true)
    (TableUi.currentDisplayed st').
Proof.
  intros Hne Htexts st'.
  assert (Hkey : truthyStr key = true) by by destruct key.
  destruct (headerClick_state stringToNumber numberToString toFixed key st Hkey)
    as (_ & Hshown & _ & Horder).
  fold st' in Hshown, Horder. rewrite Hshown, Horder.
  by apply arraySort_sorter_texts.
Qed.

Lemma forallb_filter_bool {A} (p q : A → bool) (l : list A) :
  forallb p l = true → forallb p (List.filter q l) = true.
Proof.
  induction l as [|x l IH]; [done|]. simpl. intros [Hx Hl]%andb_true_iff.
  destruct (q x); simpl; [by rewrite Hx, IH|by apply IH].
Qed.

(** A search keeps the table sorted: while a column is the current sort
    key and every record of [gpuData] holds in it a number that is not
    NaN, the records displayed after a search are sorted by that number
    in the current order. *)
Theorem applySearchFilter_keeps_order key (searchInput : option string) st :
  key ≠ EmptyString →
  TableUi.currentSortKey st = Some key →
  forallb Spec.hasName (TableUi.gpuData st) = true →
  forallb (Shown.hasNumber key) (TableUi.gpuData st) = true →
  let st' :=
    (TableUi.applySearchFilter stringToNumber numberToString toFixed searchInput st).2 in
  StronglySorted
    (λ a b, Shown.inOrder (TableUi.currentSortOrder st) PrimFloat.leb
              (Shown.numberOf key a) (Shown.numberOf key b) = true)
    (TableUi.currentDisplayed st').
Proof.
  intros Hne Hcurrent Hnames Hnumbers. unfold TableUi.applySearchFilter.
  rewrite (filterE_nameMatches _ _ Hnames), Hcurrent.
  assert (truthy (Some key) = true) as -> by by destruct key.
  destruct (TableUi.displayTable _ _ _ _) as [r tbody']. simpl.
  by apply arraySort_sorter_numbers, forallb_filter_bool.
Qed.
End ColumnFacts.

Lemma headerClick_sorts_numbers_witness :
  let st' :=
    (TableUi.headerClick Example.stringToNumber Example.numberToString Example.toFixed
       (Some "hashrate") Sample.loadedTable).2 in
  StronglySorted
    (λ a b, Shown.inOrder (TableUi.currentSortOrder st') PrimFloat.leb
              (Shown.numberOf "hashrate" a) (Shown.numberOf "hashrate" b) = true)
    (TableUi.currentDisplayed st').
Proof.
  apply (headerClick_sorts_numbers Example.stringToNumber Example.numberToString
           Example.toFixed "hashrate" Sample.loadedTable); [done|].
  vm_compute. reflexivity.
Defined.

Lemma headerClick_sorts_texts_witness :
  let st' :=
    (TableUi.headerClick Example.stringToNumber Example.numberToString Example.toFixed
       (Some "name") Sample.loadedTable).2 in
  StronglySorted
    (λ a b, Shown.inOrder (TableUi.currentSortOrder st') String.leb
              (Spec.textOf Example.numberToString (get a "name"))
              (Spec.textOf Example.numberToString (get b "name")) = true)
    (TableUi.currentDisplayed st').
Proof.
  apply (headerClick_sorts_texts Example.stringToNumber Example.numberToString
           Example.toFixed "name" Sample.loadedTable); [done|].
  vm_compute. reflexivity.
Defined.

(** ** Formatting and enrichment *)

Section FormatFacts.
Variable stringToNumber : string → float.
Variable localeNumber : float → nat → string.
Variable localeCurrency : float → string.
Variable toFixed : float → nat → string.
Variable mathRound : float → float.

(** [formatNumber] gives the dash for [undefined] and for every value
    whose number is NaN or infinite. It throws a TypeError for [null] and
    for nothing else, and a RangeError for a finite number asked with more
    fraction digits than a number format takes and for nothing else.
    [formatCurrency] throws for [undefined] and [null] and for nothing
    else. *)
Theorem formatNumber_dash_or_throw (n : val) (digits : option nat) :
  (Page.formatNumber stringToNumber localeNumber n digits = Throws TypeError ↔ n = VNull) ∧
  (Page.formatNumber stringToNumber localeNumber n digits = Throws RangeError
   ↔ ∃ x, n = VNum x ∧ PrimFloat.is_finite x = true ∧
          (maxFractionDigits < default 2 digits)%nat) ∧
  (PrimFloat.is_finite (toNumber stringToNumber n) = false →
   Page.formatNumber stringToNumber localeNumber n digits = Returns Shown.dash) ∧
  (∀ error, Page.formatCurrency localeCurrency n = Throws error
            ↔ error = TypeError ∧ (n = VUndef ∨ n = VNull)).
Proof.
  unfold Page.formatNumber, Page.formatCurrency, toLocaleStringDigits. split_and!.
  - destruct n as [| |b|x|s]; simpl; try done.
    + by destruct b.
    + destruct (PrimFloat.is_finite x); simpl; [|done].
      by destruct (maxFractionDigits <? default 2 digits)%nat.
    + by destruct (PrimFloat.is_finite (stringToNumber s)).
  - destruct n as [| |b|x|s]; simpl.
    + split; [done|]. by intros (x & ? & _).
    + split; [done|]. by intros (x & ? & _).
    + destruct b; simpl; (split; [done|]); by intros (x & ? & _).
    + destruct (PrimFloat.is_finite x) eqn:Hfinite; simpl.
      * destruct (Nat.ltb_spec maxFractionDigits (default 2 digits)) as [Hlt|Hle].
        -- split; [|done]. intros _. by exists x.
        -- split; [done|]. intros (y & _ & _ & Hlt). lia.
      * split; [done|]. intros (y & [= <-] & Hy & _). congruence.
    + destruct (PrimFloat.is_finite (stringToNumber s)); simpl;
        (split; [done|]); by intros (x & ? & _).
  - by intros ->.
  - intros error. destruct n; simpl.
    + split; [intros [= <-]; split; [done|by left]|by intros [-> _]].
    + split; [intros [= <-]; split; [done|by right]|by intros [-> _]].
    + split; [done|]. by intros [_ [|]].
    + split; [done|]. by intros [_ [|]].
    + split; [done|]. by intros [_ [|]].
Qed.

(** Enrichment keeps every property of a record other than
    [efficiency], [dailyProfit] and [roi], present or absent, and makes
    these three numbers, whatever the record held under them. *)
Theorem enrichGpu_properties (gpu : obj) (k : string) :
  (k ≠ "efficiency" → k ≠ "dailyProfit" → k ≠ "roi" →
   Table.enrichGpu stringToNumber toFixed mathRound gpu !! k = gpu !! k) ∧
  isNumber (get (Table.enrichGpu stringToNumber toFixed mathRound gpu) "efficiency") = true ∧
  isNumber (get (Table.enrichGpu stringToNumber toFixed mathRound gpu) "dailyProfit") = true ∧
  isNumber (get (Table.enrichGpu stringToNumber toFixed mathRound gpu) "roi") = true.
Proof.
  unfold Table.enrichGpu, get. split_and!.
  - intros He Hd Hr. by rewrite !lookup_insert_ne.
  - rewrite lookup_insert_ne; [|done]. rewrite lookup_insert_ne; [|done].
    by rewrite lookup_insert_eq.
  - rewrite lookup_insert_ne; [|done]. by rewrite lookup_insert_eq.
  - by rewrite lookup_insert_eq.
Qed.
End FormatFacts.

Lemma applySearchFilter_keeps_order_witness :
  let st := (TableUi.headerClick Example.stringToNumber Example.numberToString
               Example.toFixed (Some "power") Sample.loadedTable).2 in
  let st' :=
    (TableUi.applySearchFilter Example.stringToNumber Example.numberToString
       Example.toFixed (Some "r") st).2 in
  StronglySorted
    (λ a b, Shown.inOrder (TableUi.currentSortOrder st) PrimFloat.leb
              (Shown.numberOf "power" a) (Shown.numberOf "power" b) = true)
    (TableUi.currentDisplayed st').
Proof.
  apply (applySearchFilter_keeps_order Example.stringToNumber Example.numberToString
           Example.toFixed "power" (Some "r")
           (TableUi.headerClick Example.stringToNumber Example.numberToString
              Example.toFixed (Some "power") Sample.loadedTable).2);
    [done|vm_compute; reflexivity..].
Defined.

(** ** The lines of the error *)

Section ErrorLines.
Implicit Types (s t : string) (lines : list string).

Lemma breakLines_append s t : breakLines (s +:+ t) = breakLines s +:+ breakLines t.
Proof.
  induction s as [|c s IH]; [done|]. rewrite append_cons. cbn [breakLines].
  rewrite IH. destruct (Ascii.eqb c "010"%char); [|done].
  by rewrite append_assoc.
Qed.

Lemma breakLines_no_feed s : includes s newline = false → breakLines s = s.
Proof.
  induction s as [|c s IH]; [done|]. cbn [includes breakLines].
  intros [Hhead Htail]%orb_false_iff. rewrite (IH Htail).
  destruct (Ascii.eqb_spec c "010"%char) as [->|]; [|done].
  by destruct s.
Qed.

(** The lines that [fetchGpusFromSources] joins by line feeds come out of
    the replacement of [loadGpus] joined by breaks, as long as no line
    has a line feed in it. *)
Theorem breakLines_join lines :
  forallb (λ s, negb (includes s newline)) lines = true →
  breakLines (join newline lines) = join "<br />" lines.
Proof.
  induction lines as [|s lines IH]; [done|]. cbn [forallb].
  intros [Hs%negb_true_iff Hlines]%andb_true_iff.
  destruct lines as [|t lines]; [by apply breakLines_no_feed|].
  change (join newline (s :: t :: lines)) with (s +:+ newline +:+ join newline (t :: lines)).
  change (join "<br />" (s :: t :: lines)) with (s +:+ "<br />" +:+ join "<br />" (t :: lines)).
  by rewrite !breakLines_append, (breakLines_no_feed s Hs), (IH Hlines).
Qed.
End ErrorLines.

Lemma breakLines_join_witness :
  breakLines (join newline ["/api/gpus: 503 Service Unavailable"; "data/gpus.json: Failed to fetch"])
  = join "<br />" ["/api/gpus: 503 Service Unavailable"; "data/gpus.json: Failed to fetch"].
Proof.
  apply (breakLines_join
           ["/api/gpus: 503 Service Unavailable"; "data/gpus.json: Failed to fetch"]).
  reflexivity.
Defined.
